(** * alinea.astk.TimeControl: scheduling utilities for simulations

    A shallow embedding of [src/alinea/astk/TimeControl.py] (Python 2) and
    the properties of its schedulers and partitioners.

    Conventions of the embedding:
    - a Python value that the module only stores or compares is a [Py.value];
    - a call that may raise returns a [Py.result];
    - an object with mutable state is passed explicitly: a method returns its
      outcome together with the object after the call;
    - an iterator is a state with a [next] step; [Py.consume] is the driver
      of a [for] loop (or of [list(...)]) over it;
    - [zip] is the library's [zip], as long as the shorter of its lists. *)

From Stdlib Require Import ZArith QArith Qround Qfield Lia.
From stdpp Require Import base option list gmap strings sorting.

Close Scope Q_scope.

(** ** Python values, exceptions and builtins *)

Module Py.

Inductive exn :=
| StopIteration
| TypeError
| ZeroDivisionError
| AttributeError
| IndexError
| ValueError
| Raised (msg : string).

Inductive value :=
| None_
| Bool (b : bool)
| Int (z : Z)
| Str (s : string)
| Obj (id : positive).
(** [Obj] stands for a data object that is only stored and passed on: it is
    no number, and distinct from [None] and from the booleans. *)

#[global] Instance exn_eq_dec : EqDecision exn.
Proof. solve_decision. Defined.

#[global] Instance value_eq_dec : EqDecision value.
Proof. solve_decision. Defined.

Inductive result (A : Type) :=
| Ok (a : A)
| Raise (e : exn).

Arguments Ok {A} a.
Arguments Raise {A} e.

#[global] Instance result_ret : MRet result := @Ok.

#[global] Instance result_bind : MBind result :=
  λ A B f m, match m with Ok a => f a | Raise e => Raise e end.

#[global] Instance result_fmap : FMap result :=
  λ A B f m, match m with Ok a => Ok (f a) | Raise e => Raise e end.

(** [try: body except: handler] with a bare [except], which catches all. *)
Definition try_except {A} (body : result A) (handler : result A) : result A :=
  match body with
  | Ok a => Ok a
  | Raise _ => handler
  end.

(** [range(n)] on an integer (Python 2: a list). *)
Definition range_int (n : Z) : list Z := seqZ 0 n.

(** [range(x)] on any value: an integer or a bool, else [TypeError]. *)
Definition range (x : value) : result (list Z) :=
  match x with
  | Int n => Ok (range_int n)
  | Bool b => Ok (range_int (Z.b2z b))
  | _ => Raise TypeError
  end.

(** [i % x] for an integer [i]: floor modulo, the sign of the divisor. *)
Definition mod_ (i : Z) (x : value) : result Z :=
  match x with
  | Int d => if decide (d = 0%Z) then Raise ZeroDivisionError else Ok (i mod d)%Z
  | Bool b => if b then Ok (i mod 1)%Z else Raise ZeroDivisionError
  | _ => Raise TypeError
  end.

(** [int(q)] on a number: truncation towards zero. *)
Definition int (q : Q) : Z := Z.quot (Qnum q) (Zpos (Qden q)).

(** [reduce(f, l)] without an initial value. *)
Definition reduce {A} (f : A → A → A) (l : list A) : result A :=
  match l with
  | [] => Raise TypeError
  | x :: xs => Ok (foldl f x xs)
  end.

(** [dict(pairs)]: a later pair replaces an earlier one with its key. *)
Definition dict {V} (pairs : list (string * V)) : gmap string V :=
  foldl (λ m kv, <[kv.1 := kv.2]> m) ∅ pairs.

(** The driver of [for x in it] and of [list(it)]: call [next] until it
    raises, and keep what it returned; the exception that ended the loop is
    returned with the final state ([StopIteration] for a normal end).
    [None]: the iterator was not exhausted within [fuel] calls. *)
Fixpoint consume {S A} (next : S → result A * S) (fuel : nat) (s : S)
  : option (list A * exn * S) :=
  match fuel with
  | O => None
  | Datatypes.S fuel' =>
      match next s with
      | (Raise e, s') => Some ([], e, s')
      | (Ok x, s') =>
          match consume next fuel' s' with
          | Some (xs, e, s'') => Some (x :: xs, e, s'')
          | None => None
          end
      end
  end.

(** What a loop over an iterator sees: the items and the exception that
    ended it, without the iterator. *)
Definition yielded {S A} (r : option (list A * exn * S)) : option (list A * exn) :=
  (λ x, (x.1.1, x.1.2)) <$> r.

(** [n] calls of [next] on an iterator, whatever they return or raise. *)
Definition advance {S A} (next : S → result A * S) (n : nat) (s : S) : S :=
  Nat.iter n (λ s, (next s).2) s.

End Py.

Import Py.

(** ** TimeControlSet *)

Module TimeControlSet.

(** An instance is its [__dict__]. *)
Abbreviation t := (gmap string value).

(** Names that [hasattr] finds on every instance without looking in its
    [__dict__]: the attributes of the (old-style) class and of instances. *)
Definition class_attrs : list string :=
  ["__class__"; "__dict__"; "__doc__"; "__init__"; "__module__"; "check"]%string.

Definition __init__ (kwd : gmap string value) : t := kwd ∪ (∅ : gmap string value).

Definition hasattr (self : t) (attname : string) : bool :=
  bool_decide (is_Some (self !! attname)) || bool_decide (attname ∈ class_attrs).

Definition setattr (self : t) (attname : string) (v : value) : t :=
  <[attname := v]> self.

Definition check (self : t) (attname : string) (defaultvalue : value) : t :=
  if negb (hasattr self attname) then setattr self attname defaultvalue else self.

End TimeControlSet.

(** ** simple_delay_timing *)

(** The generator expression of [simple_delay_timing]: [range(steps)] is
    evaluated when the generator is created, the body [i % delay] at each
    [next]. [g_range] is what is left of the range. *)
Record generator := Generator { g_delay : value; g_range : list Z }.

Definition simple_delay_timing (delay steps : value) : result generator :=
  r ← range steps; mret (Generator delay r).

(** [next] of the generator; a generator that raised is finished. *)
Definition generator_next (g : generator) : result TimeControlSet.t * generator :=
  match g_range g with
  | [] => (Raise StopIteration, g)
  | i :: rest =>
      match mod_ i (g_delay g) with
      | Raise e => (Raise e, Generator (g_delay g) [])
      | Ok m =>
          (Ok (if negb (bool_decide (m ≠ 0%Z))
               then TimeControlSet.__init__ {["dt"%string := g_delay g]}
               else TimeControlSet.__init__ {["dt"%string := Int 0]}),
           Generator (g_delay g) rest)
      end
  end.

(** ** TimeControl *)

Module TimeControl.
Section WithModel.

(** The object that [model.timing(...)] returns belongs to the model: it is
    kept abstract, with the outcome of its [next] method. The call itself is
    taken to depend on its arguments only. *)
Context {ModelIter : Type}.
Variable model_next : ModelIter → result TimeControlSet.t * ModelIter.

(** The [model] argument: [None], or an object with or without a [timing]
    method. *)
Inductive model_arg :=
| NoModel
| Model (timing : option (value → value → value → value → result ModelIter)).

(** [model.timing(delay=..., steps=..., weather=..., start_date=...)] *)
Definition call_timing (model : model_arg) (delay steps weather start_date : value)
  : result ModelIter :=
  match model with
  | NoModel => Raise AttributeError
  | Model None => Raise AttributeError
  | Model (Some timing) => timing delay steps weather start_date
  end.

Inductive timing_iter :=
| FromModel (it : ModelIter)
| FromDelay (g : generator).

Record t := Build {
  delay : value;
  steps : value;
  model : model_arg;
  weather : value;
  start_date : value;
  _timing : timing_iter
}.

Definition warning : string := "Warning : not able to call model.timing correctly !!!".

(** The constructor, with the lines it prints. *)
Definition __init__ (delay steps : value) (model : model_arg) (weather start_date : value)
  : list string * result t :=
  match call_timing model delay steps weather start_date with
  | Ok it => ([], Ok (Build delay steps model weather start_date (FromModel it)))
  | Raise _ =>
      (match model with NoModel => [] | Model _ => [warning] end,
       g ← try_except (simple_delay_timing delay steps)
                      (simple_delay_timing (Int 1) (Int 1));
       mret (Build delay steps model weather start_date (FromDelay g)))
  end.

Definition __iter__ (self : t) : list string * result t :=
  __init__ (delay self) (steps self) (model self) (weather self) (start_date self).

Definition with_timing (self : t) (tm : timing_iter) : t :=
  Build (delay self) (steps self) (model self) (weather self) (start_date self) tm.

Definition next (self : t) : result TimeControlSet.t * t :=
  match _timing self with
  | FromModel it =>
      let '(r, it') := model_next it in (r, with_timing self (FromModel it'))
  | FromDelay g =>
      let '(r, g') := generator_next g in (r, with_timing self (FromDelay g'))
  end.

End WithModel.

Arguments model_arg : clear implicits.
Arguments timing_iter : clear implicits.
Arguments t : clear implicits.

End TimeControl.

(** ** TimeControler *)

Module TimeControler.
Section Streams.

Context {A : Type}.

(** The values of the keyword arguments: finite step sources.
    - [Seq l]: a sequence such as a list; [iter] gives an iterator over it,
      it has no [next] of its own;
    - [SeqIter rest]: an iterator over a sequence, [rest] still to come;
      [iter] gives the iterator itself;
    - [Restartable all rest]: an object in the style of [Timing] and
      [TimeControl]; [iter] gives a fresh object, [next] pulls from [rest]. *)
Inductive stream :=
| Seq (l : list A)
| SeqIter (rest : list A)
| Restartable (all rest : list A).

Definition py_iter (v : stream) : stream :=
  match v with
  | Seq l => SeqIter l
  | SeqIter rest => SeqIter rest
  | Restartable all _ => Restartable all all
  end.

Definition py_next (v : stream) : result A * stream :=
  match v with
  | Seq l => (Raise AttributeError, v)
  | SeqIter [] | Restartable _ [] => (Raise StopIteration, v)
  | SeqIter (x :: rest) => (Ok x, SeqIter rest)
  | Restartable all (x :: rest) => (Ok x, Restartable all rest)
  end.

(** The items that [iter(v)] yields, from its first [next] to its end. *)
Definition items (v : stream) : list A :=
  match v with
  | Seq l => l
  | SeqIter rest => rest
  | Restartable all _ => all
  end.

(** A live iterator (what [iter] returns), and the items it has left. *)
Definition live (v : stream) : Prop :=
  match v with
  | Seq _ => False
  | _ => True
  end.

Definition remaining (v : stream) : list A :=
  match v with
  | Seq l => l
  | SeqIter rest => rest
  | Restartable _ rest => rest
  end.

(** [_timedict] is kept as the list of its items in iteration order. *)
Record t := Build { _timedict : list (string * stream); numiter : Z }.

Definition __init__ (kwd : list (string * stream)) : t :=
  Build kwd 0.

Definition __iter__ (self : t) : t :=
  Build ((λ kv, (kv.1, py_iter kv.2)) <$> _timedict self) 0.

(** The pairs that [dict(...)] receives from the generator expression
    [((k, v.next()) for k, v in self._timedict.iteritems())] in [next].
    A [StopIteration] raised by [v.next()] leaves the generator expression
    as its own end: [dict] takes the pairs made so far (Python 2). Any other
    exception goes through [dict] to the caller. *)
Fixpoint pull (td : list (string * stream))
  : result (list (string * A)) * list (string * stream) :=
  match td with
  | [] => (Ok [], [])
  | (k, v) :: rest =>
      match py_next v with
      | (Ok x, v') =>
          let '(r, rest') := pull rest in (cons (k, x) <$> r, (k, v') :: rest')
      | (Raise StopIteration, v') => (Ok [], (k, v') :: rest)
      | (Raise e, v') => (Raise e, (k, v') :: rest)
      end
  end.

Definition next (self : t) : result (gmap string A) * t :=
  let '(r, td) := pull (_timedict self) in
  match r with
  | Raise e => (Raise e, Build td (numiter self))
  | Ok pairs =>
      let d := dict pairs in
      if decide (size d = 0)
      then (Raise StopIteration, Build td (numiter self))
      else (Ok d, Build td (numiter self + 1))
  end.

End Streams.

Arguments stream : clear implicits.
Arguments t : clear implicits.

End TimeControler.

(** ** TimingElement, delay_to_timing, Timing *)

Module TimingElement.

Record t := Build { data : value }.

Definition __init__ (data : value) : t := Build data.

Definition __nonzero__ (self : t) : bool :=
  if decide (data self ≠ Bool false) then true else false.

End TimingElement.

Definition delay_to_timing (delays : list Q) (datas : option (list value))
  : result (list value) :=
  let timing :=
    match datas with
    | Some datas =>
        (λ '(d, dat), (λ i, if decide (i = 0%Z) then dat else Bool false)
                        <$> range_int (int d)) <$> zip delays datas
    | None =>
        (λ d, (λ i, if decide (i = 0%Z) then Bool true else Bool false)
                <$> range_int (int d)) <$> delays
    end in
  reduce (λ x y, x ++ y) timing.

Module Timing.

(** [_timing] is the list iterator: the elements still to come. *)
Record t := Build {
  delays : list Q;
  datas : option (list value);
  _timing : list TimingElement.t
}.

Definition __init__ (delays : list Q) (datas : option (list value)) : result t :=
  timing ← delay_to_timing delays datas;
  mret (Build delays datas (TimingElement.__init__ <$> timing)).

Definition __iter__ (self : t) : result t :=
  __init__ (delays self) (datas self).

Definition next (self : t) : result TimingElement.t * t :=
  match _timing self with
  | [] => (Raise StopIteration, self)
  | x :: rest => (Ok x, Build (delays self) (datas self) rest)
  end.

End Timing.

(** ** time_split *)

(** A pandas [DatetimeIndex]: [stamps] are its timestamps, counted in
    seconds; [freq] is the frequency the index carries, as the number of
    seconds of one period, [None] when it carries none. A timestamp taken
    from the index keeps the frequency, and adding the integer [n] to it
    moves it by [n] periods. Durations in hours, floats in the source, are
    exact rationals here. *)
Record DatetimeIndex := Build_index { stamps : list Z; freq : option Z }.

Module Pandas.

(** [l[i]], a negative [i] counting from the end. *)
Definition getitem (l : list Z) (i : Z) : result Z :=
  let n := Z.of_nat (length l) in
  if decide (0 ≤ i < n)%Z then
    match l !! Z.to_nat i with Some x => Ok x | None => Raise IndexError end
  else if decide (- n ≤ i < 0)%Z then
    match l !! Z.to_nat (n + i) with Some x => Ok x | None => Raise IndexError end
  else Raise IndexError.

(** [timestamp + n] for an integer [n]. *)
Definition Timestamp_add (index : DatetimeIndex) (t n : Z) : result Z :=
  match freq index with
  | Some period => Ok (t + n * period)%Z
  | None => Raise ValueError
  end.

(** [delta.total_seconds() / 3600] for a difference of timestamps. *)
Definition hours (delta : Z) : Q := (inject_Z delta / inject_Z 3600)%Q.

(** [x % d] on a float [x]. *)
Definition fmod (x : Q) (d : Z) : result Q :=
  if decide (d = 0%Z) then Raise ZeroDivisionError
  else Ok (x - inject_Z (Qfloor (x / inject_Z d)) * inject_Z d)%Q.

(** [index[filter]] with a list of booleans. *)
Definition mask (l : list Z) (filter : list bool) : list Z :=
  fst <$> List.filter snd (zip l filter).

(** The transposition [zip] of the unpacked events, bound to two names. *)
Definition unzip {A B} (events : list (A * B)) : result (list A * list B) :=
  match events with
  | [] => Raise ValueError
  | _ => Ok (fst <$> events, snd <$> events)
  end.

(** A list comprehension whose body may raise. *)
Fixpoint comprehension {A B} (f : A → result B) (l : list A) : result (list B) :=
  match l with
  | [] => Ok []
  | x :: l' => y ← f x; ys ← comprehension f l'; mret (y :: ys)
  end.

End Pandas.

Import Pandas.

(** [weather_data], when given, is the table through the one use made of it:
    [weather_data.truncate(before=start, after=end).ix[:-1,]]. *)
Definition time_split (time_sequence : DatetimeIndex)
    (weather_data : option (Z → Z → value)) (delay : Z)
  : result (list Q * list value) :=
  time ← comprehension
            (λ t, t0 ← getitem (stamps time_sequence) 0; mret (hours (t - t0)))
            (stamps time_sequence);
  filter ← comprehension (λ t, m ← fmod t delay; mret (Qeq_bool m 0)) time;
  let starts := mask (stamps time_sequence) filter in
  tn ← getitem (stamps time_sequence) (-1);
  tn1 ← Timestamp_add time_sequence tn 1;
  let ends := tail starts ++ [tn1] in
  let events :=
    match weather_data with
    | Some truncate =>
        (λ '(start, end_), (hours (end_ - start), truncate start end_))
          <$> zip starts ends
    | None =>
        (λ '(start, end_), (hours (end_ - start), None_)) <$> zip starts ends
    end in
  unzip events.

(** ** rain_filter, rain_split *)

(** The weather table, through the uses made of it: [rain t] is the value of
    its [rain] column at the timestamp [t] (the table is taken to have a row
    for every timestamp of the sequence; rain amounts, floats in the source,
    are exact rationals), and [truncate start end_] is
    [weather_data.truncate(before=start, after=end).ix[:-1,]]. *)
Record weather := Build_weather { rain : Z → Q; truncate : Z → Z → value }.

(** [rain[rain > 0] = 1], on one value. *)
Definition binarize (r : Q) : Q := if Qlt_le_dec 0 r then 1%Q else r.

(** [x != y] on two numbers. *)
Definition differs (x y : Q) : bool := negb (Qeq_bool x y).

(** The timestamps of the index that [rain_filter] returns. The comparison
    [rain[1:] != rain[:-1]] of two series of the same length goes by
    position. *)
Definition rain_filter (time_sequence : DatetimeIndex) (weather_data : weather)
  : list Z :=
  let rain := binarize <$> (rain weather_data <$> stamps time_sequence) in
  let filter :=
    [true] ++ zip_with differs (drop 1 rain) (take (pred (length rain)) rain) in
  mask (stamps time_sequence) filter.

Definition rain_split (time_sequence : DatetimeIndex) (weather_data : weather)
  : result (list Q * list value) :=
  let starts := rain_filter time_sequence weather_data in
  tn ← getitem (stamps time_sequence) (-1);
  tn1 ← Timestamp_add time_sequence tn 1;
  let ends := tail starts ++ [tn1] in
  let events :=
    (λ '(start, end_), (hours (end_ - start), truncate weather_data start end_))
      <$> zip starts ends in
  unzip events.

(** ** Notions used to state properties *)

(** The pairs of the step [i] of a joint iteration in closed form: the item
    [i] of each stream, along the iteration order, up to the first stream
    that has no item [i]. A stream is given by its name and its items. *)
Fixpoint prefix_pairs {A} (i : nat) (streams : list (string * list A))
  : list (string * A) :=
  match streams with
  | [] => []
  | (k, l) :: rest =>
      match l !! i with
      | Some x => (k, x) :: prefix_pairs i rest
      | None => []
      end
  end.

(** The rain state at a timestamp: 1 when it rains, else the amount in the
    table (0 on a dry hour). *)
Definition rain_state (weather_data : weather) (t : Z) : Q :=
  binarize (rain weather_data t).

(** The sum of a list of durations. *)
Definition Qsum (l : list Q) : Q := foldr Qplus 0%Q l.

(** The [dt] of a bundle, as an integer (0 when it has none). *)
Definition dt_of (bundle : gmap string value) : Z :=
  match bundle !! "dt"%string with
  | Some (Int z) => z
  | _ => 0%Z
  end.

(** * Properties *)

(** ** TimeControlSet.check *)

Lemma hasattr_lookup (self : TimeControlSet.t) (attname : string) (v : value) :
  self !! attname = Some v → TimeControlSet.hasattr self attname = true.
Proof.
  intros Hv. unfold TimeControlSet.hasattr.
  rewrite bool_decide_eq_true_2; [done | by exists v].
Qed.

Lemma hasattr_setattr (self : TimeControlSet.t) (attname : string) (v : value) :
  TimeControlSet.hasattr (TimeControlSet.setattr self attname v) attname = true.
Proof.
  apply (hasattr_lookup _ _ v). unfold TimeControlSet.setattr.
  by rewrite lookup_insert_eq.
Qed.

Lemma check_present (self : TimeControlSet.t) (attname : string) (d : value) :
  TimeControlSet.hasattr self attname = true →
  TimeControlSet.check self attname d = self.
Proof. intros H. unfold TimeControlSet.check. by rewrite H. Qed.

Lemma check_absent (self : TimeControlSet.t) (attname : string) (d : value) :
  TimeControlSet.hasattr self attname = false →
  TimeControlSet.check self attname d = TimeControlSet.setattr self attname d.
Proof. intros H. unfold TimeControlSet.check. by rewrite H. Qed.

(** C8. [check] on any bundle, name and default: an absent attribute is set
    to the default (and nothing else changes); an attribute that is present,
    whatever its value ([None] and [False] included), is left as it is, and
    so is the whole bundle; a second call, with any other default, changes
    nothing. On an empty bundle, [check("dt", 0)] sets [dt] to 0 and a
    second [check("dt", 5)] leaves it at 0. *)
Theorem check_sets_absent_keeps_present
    (self : TimeControlSet.t) (attname : string) (defaultvalue : value) :
  (TimeControlSet.hasattr self attname = false →
     TimeControlSet.check self attname defaultvalue !! attname = Some defaultvalue
     ∧ ∀ other, other ≠ attname →
         TimeControlSet.check self attname defaultvalue !! other = self !! other)
  ∧ (TimeControlSet.hasattr self attname = true →
     TimeControlSet.check self attname defaultvalue = self)
  ∧ (∀ v, self !! attname = Some v →
     TimeControlSet.check self attname defaultvalue !! attname = Some v)
  ∧ (∀ other_default,
     TimeControlSet.check (TimeControlSet.check self attname defaultvalue)
                          attname other_default
     = TimeControlSet.check self attname defaultvalue)
  ∧ (let bundle := TimeControlSet.check (TimeControlSet.__init__ ∅) "dt" (Int 0) in
     bundle !! "dt"%string = Some (Int 0)
     ∧ TimeControlSet.check bundle "dt" (Int 5) !! "dt"%string = Some (Int 0)).
Proof.
  repeat split.
  - rewrite check_absent by done. apply lookup_insert_eq.
  - intros other Hne. rewrite check_absent by done.
    unfold TimeControlSet.setattr. by rewrite lookup_insert_ne.
  - apply check_present.
  - intros v Hv. by rewrite (check_present _ _ _ (hasattr_lookup _ _ _ Hv)).
  - intros other_default.
    destruct (TimeControlSet.hasattr self attname) eqn:Hp.
    + rewrite (check_present self attname defaultvalue Hp).
      by apply check_present.
    + rewrite (check_absent self) by done.
      apply check_present, hasattr_setattr.
Qed.

Lemma check_sets_absent_keeps_present_witness :
  TimeControlSet.hasattr (∅ : gmap string value) "dt" = false
  ∧ TimeControlSet.check (∅ : gmap string value) "dt" (Int 0) !! "dt"%string
    = Some (Int 0).
Proof.
  split; [reflexivity |].
  apply (proj1 (check_sets_absent_keeps_present ∅ "dt" (Int 0))). reflexivity.
Defined.

(** ** TimingElement *)

(** C9. The truth test of a [TimingElement] built from a payload is false
    exactly when the payload is the value [False]; [True], [None], the
    integer 0, a string or a data object all test true. *)
Theorem nonzero_false_iff_payload_False (payload : value) :
  (TimingElement.__nonzero__ (TimingElement.__init__ payload) = false
   ↔ payload = Bool false)
  ∧ (payload ≠ Bool false →
     TimingElement.__nonzero__ (TimingElement.__init__ payload) = true)
  ∧ TimingElement.__nonzero__ (TimingElement.__init__ (Bool true)) = true
  ∧ TimingElement.__nonzero__ (TimingElement.__init__ None_) = true
  ∧ TimingElement.__nonzero__ (TimingElement.__init__ (Int 0)) = true
  ∧ (∀ id, TimingElement.__nonzero__ (TimingElement.__init__ (Obj id)) = true).
Proof.
  unfold TimingElement.__nonzero__, TimingElement.__init__. simpl.
  split; [split |].
  - case_decide as H; [done |]. intros _.
    destruct (decide (payload = Bool false)); done.
  - intros ->. by case_decide.
  - repeat split; try done. intros H. by case_decide.
Qed.

Lemma nonzero_false_iff_payload_False_witness :
  Str "rain" ≠ Bool false
  ∧ TimingElement.__nonzero__ (TimingElement.__init__ (Str "rain")) = true.
Proof.
  split; [discriminate |].
  apply (proj1 (proj2 (nonzero_false_iff_payload_False (Str "rain")))).
  discriminate.
Defined.

(** ** simple_delay_timing *)

Lemma TimeControlSet_init_singleton (name : string) (v : value) :
  TimeControlSet.__init__ {[name := v]} = {[name := v]}.
Proof. unfold TimeControlSet.__init__. apply (right_id_L ∅ (∪)). Qed.

(** Draining the generator over what is left of its range, for a delay that
    is a non-zero integer. *)
Lemma consume_generator (delay : Z) (r : list Z) (fuel : nat) :
  delay ≠ 0%Z → length r < fuel →
  consume generator_next fuel (Generator (Int delay) r)
  = Some ((λ i : Z, ({["dt"%string :=
                        Int (if decide ((i mod delay)%Z = 0%Z) then delay else 0)]}
                     : gmap string value)) <$> r,
          StopIteration, Generator (Int delay) []).
Proof.
  intros Hd. revert fuel.
  induction r as [| i r IH]; intros [| fuel] Hlt; simpl in *; try lia.
  - done.
  - unfold generator_next. simpl. destruct (decide (delay = 0%Z)); [done |].
    rewrite IH by lia. rewrite !TimeControlSet_init_singleton.
    destruct (decide ((i mod delay)%Z = 0%Z)) as [Hm | Hm].
    + rewrite bool_decide_eq_false_2 by (intros H; by apply H). done.
    + rewrite bool_decide_eq_true_2 by done. done.
Qed.

(** C5. For a positive integer [delay] and a non-negative integer [steps],
    [simple_delay_timing(delay, steps)] is created and yields exactly
    [steps] bundles before it ends; bundle [i] has [dt = delay] when [i] is a
    multiple of [delay], and [dt = 0] otherwise. With [delay=3, steps=9] the
    [dt] values are 3,0,0,3,0,0,3,0,0. *)
Theorem simple_delay_timing_yields :
  (∀ (delay steps : Z) (fuel : nat),
     (0 < delay)%Z → (0 ≤ steps)%Z → Z.to_nat steps < fuel →
     ∃ g bundles g',
       simple_delay_timing (Int delay) (Int steps) = Ok g
       ∧ consume generator_next fuel g = Some (bundles, StopIteration, g')
       ∧ length bundles = Z.to_nat steps
       ∧ ∀ i : nat, i < Z.to_nat steps →
           bundles !! i
           = Some {["dt"%string :=
                      Int (if decide ((Z.of_nat i mod delay)%Z = 0%Z)
                           then delay else 0)]})
  ∧ (∃ g bundles g',
       simple_delay_timing (Int 3) (Int 9) = Ok g
       ∧ consume generator_next 10 g = Some (bundles, StopIteration, g')
       ∧ (λ b : gmap string value, b !! "dt"%string) <$> bundles
         = Some ∘ Int <$> [3; 0; 0; 3; 0; 0; 3; 0; 0]%Z).
Proof.
  split.
  - intros delay steps fuel Hd Hs Hfuel.
    eexists _, _, _. split; [reflexivity |]. split.
    + apply consume_generator; [lia |].
      unfold range_int. rewrite length_seqZ. lia.
    + split.
      * rewrite length_fmap. unfold range_int. by rewrite length_seqZ.
      * intros i Hi. rewrite list_lookup_fmap. unfold range_int.
        rewrite (lookup_seqZ_lt 0 steps i) by lia. simpl.
        by rewrite Z.add_0_l.
  - eexists _, _, _. split; [reflexivity |]. split.
    + rewrite consume_generator by (simpl; lia). reflexivity.
    + vm_compute. reflexivity.
Qed.

Lemma simple_delay_timing_yields_witness :
  (0 < 2)%Z ∧ (0 ≤ 3)%Z ∧ Z.to_nat 3 < 4
  ∧ ∃ g bundles g',
      simple_delay_timing (Int 2) (Int 3) = Ok g
      ∧ consume generator_next 4 g = Some (bundles, StopIteration, g')
      ∧ length bundles = Z.to_nat 3
      ∧ ∀ i : nat, i < Z.to_nat 3 →
          bundles !! i
          = Some {["dt"%string :=
                     Int (if decide ((Z.of_nat i mod 2)%Z = 0%Z) then 2 else 0)]}.
Proof.
  split; [lia |]. split; [lia |]. split; [simpl; lia |].
  apply (proj1 simple_delay_timing_yields 2%Z 3%Z 4); simpl; lia.
Defined.

(** ** delay_to_timing on an empty list *)

(** C10. With an empty [delays], [delay_to_timing] raises ([reduce] has
    nothing to start from) and returns no sequence, whatever [datas] is; so
    does the construction of a [Timing] from it. *)
Theorem delay_to_timing_empty_raises (datas : option (list value)) :
  delay_to_timing [] datas = Raise TypeError
  ∧ (∀ timing, delay_to_timing [] datas ≠ Ok timing)
  ∧ Timing.__init__ [] datas = Raise TypeError.
Proof.
  assert (H : delay_to_timing [] datas = Raise TypeError)
    by (destruct datas; reflexivity).
  split; [done |]. split.
  - intros timing. by rewrite H.
  - unfold Timing.__init__. by rewrite H.
Qed.

(** ** TimeControl *)

Section TimeControlProperties.

Context {ModelIter : Type}.
Variable model_next : ModelIter → result TimeControlSet.t * ModelIter.

Lemma TimeControl_next_timing (tc tc0 : TimeControl.t ModelIter) :
  TimeControl._timing tc = TimeControl._timing tc0 →
  (TimeControl.next model_next tc).1 = (TimeControl.next model_next tc0).1
  ∧ TimeControl._timing (TimeControl.next model_next tc).2
    = TimeControl._timing (TimeControl.next model_next tc0).2.
Proof.
  intros H. unfold TimeControl.next. rewrite H.
  destruct (TimeControl._timing tc0) as [it | g].
  - by destruct (model_next it).
  - by destruct (generator_next g).
Qed.

Lemma TimeControl_consume_timing (fuel : nat) (tc tc0 : TimeControl.t ModelIter) :
  TimeControl._timing tc = TimeControl._timing tc0 →
  yielded (consume (TimeControl.next model_next) fuel tc)
  = yielded (consume (TimeControl.next model_next) fuel tc0).
Proof.
  revert tc tc0. induction fuel as [| fuel IH]; intros tc tc0 H; [done |].
  simpl. destruct (TimeControl_next_timing tc tc0 H) as [Hr Ht].
  destruct (TimeControl.next model_next tc) as [r s].
  destruct (TimeControl.next model_next tc0) as [r0 s0].
  simpl in Hr, Ht. subst r0. destruct r as [x | e]; [| done].
  specialize (IH s s0 Ht).
  destruct (consume _ fuel s) as [[[xs e] s'] |],
           (consume _ fuel s0) as [[[xs0 e0] s0'] |];
    simpl in *; congruence.
Qed.

(** The constructor returns an object on every input, with the timing that
    the first successful attempt gave. *)
Lemma TimeControl_init_constructs
    (delay steps : value) (model : TimeControl.model_arg ModelIter)
    (weather start_date : value) :
  ∃ out tc,
    TimeControl.__init__ delay steps model weather start_date = (out, Ok tc)
    ∧ (∀ it, TimeControl.call_timing model delay steps weather start_date = Ok it →
         TimeControl._timing tc = TimeControl.FromModel it)
    ∧ (∀ e g, TimeControl.call_timing model delay steps weather start_date = Raise e →
         simple_delay_timing delay steps = Ok g →
         TimeControl._timing tc = TimeControl.FromDelay g)
    ∧ (∀ e e', TimeControl.call_timing model delay steps weather start_date = Raise e →
         simple_delay_timing delay steps = Raise e' →
         TimeControl._timing tc = TimeControl.FromDelay (Generator (Int 1) [0%Z])).
Proof.
  unfold TimeControl.__init__.
  destruct (TimeControl.call_timing model delay steps weather start_date)
    as [it | e].
  - eexists _, _. split; [reflexivity |]. repeat split; intros; simplify_eq; done.
  - destruct (simple_delay_timing delay steps) as [g | e'] eqn:Hg.
    + eexists _, _. split; [reflexivity |].
      repeat split; intros; simplify_eq; done.
    + eexists _, _. split; [reflexivity |].
      repeat split; intros; simplify_eq; done.
Qed.

(** C2. [TimeControl(delay=0, steps=3)] and [TimeControl(steps=3)] (so
    [delay=None]) are constructed without an error and without the default
    schedule: the generator over [range(3)] with the invalid delay is kept,
    and the first advance raises [ZeroDivisionError], respectively
    [TypeError]. An invalid [steps] is recovered at construction, an
    invalid [delay] is not. *)
Theorem TimeControl_invalid_delay_raises_on_advance (weather start_date : value) :
  (∃ tc,
     TimeControl.__init__ (Int 0) (Int 3) TimeControl.NoModel weather start_date
     = ([], Ok tc)
     ∧ TimeControl._timing tc = TimeControl.FromDelay (Generator (Int 0) [0; 1; 2]%Z)
     ∧ (TimeControl.next model_next tc).1 = Raise ZeroDivisionError)
  ∧ (∃ tc,
     TimeControl.__init__ None_ (Int 3) TimeControl.NoModel weather start_date
     = ([], Ok tc)
     ∧ TimeControl._timing tc = TimeControl.FromDelay (Generator None_ [0; 1; 2]%Z)
     ∧ (TimeControl.next model_next tc).1 = Raise TypeError)
  ∧ (∃ tc : TimeControl.t ModelIter,
     TimeControl.__init__ (Int 0) None_ TimeControl.NoModel weather start_date
     = ([], Ok tc)
     ∧ TimeControl._timing tc = TimeControl.FromDelay (Generator (Int 1) [0%Z])).
Proof.
  split; [| split]; eexists; (split; [reflexivity |]); repeat split.
Qed.

Lemma TimeControl_consume_delay (fuel : nat) :
  ∀ (tc : TimeControl.t ModelIter) (g : generator),
    TimeControl._timing tc = TimeControl.FromDelay g →
    yielded (consume (TimeControl.next model_next) fuel tc)
    = yielded (consume generator_next fuel g).
Proof.
  induction fuel as [| fuel IH]; intros tc g Ht; [done |].
  simpl. unfold TimeControl.next at 1. rewrite Ht.
  destruct (generator_next g) as [[x | e] g']; [| done].
  specialize (IH (TimeControl.with_timing tc (TimeControl.FromDelay g')) g' eq_refl).
  destruct (consume (TimeControl.next model_next) fuel _) as [[[xs e] s'] |],
           (consume generator_next fuel g') as [[[xs0 e0] s0'] |];
    simpl in *; congruence.
Qed.

(** C7. When the [timing] method of the model raises, the constructor
    returns normally, having printed its warning, and so does the
    constructor with [model=None] and the same [delay] and [steps]. Both
    schedulers hold the same generator [g], which is the uniform fallback
    [simple_delay_timing(delay, steps)] (the generator over [range(steps)]
    with the given [delay]) whenever that can be created, and the default
    [simple_delay_timing(1, 1)] otherwise; a loop over either scheduler sees
    the bundles, and the end or the error, that a loop over [g] sees. *)
Theorem TimeControl_raising_model_as_no_model
    (timing : value → value → value → value → result ModelIter)
    (delay steps weather start_date : value) (e : exn) :
  timing delay steps weather start_date = Raise e →
  ∃ tc tc0 g,
    TimeControl.__init__ delay steps (TimeControl.Model (Some timing))
                         weather start_date
    = ([TimeControl.warning], Ok tc)
    ∧ TimeControl.__init__ delay steps TimeControl.NoModel weather start_date
      = ([], Ok tc0)
    ∧ TimeControl._timing tc = TimeControl.FromDelay g
    ∧ TimeControl._timing tc0 = TimeControl.FromDelay g
    ∧ (simple_delay_timing delay steps = Ok g
       ∨ ((∃ e', simple_delay_timing delay steps = Raise e')
          ∧ simple_delay_timing (Int 1) (Int 1) = Ok g))
    ∧ (∀ r, range steps = Ok r → g = Generator delay r)
    ∧ (∀ fuel,
         yielded (consume (TimeControl.next model_next) fuel tc)
         = yielded (consume generator_next fuel g)
         ∧ yielded (consume (TimeControl.next model_next) fuel tc0)
           = yielded (consume generator_next fuel g)
         ∧ yielded (consume (TimeControl.next model_next) fuel tc)
           = yielded (consume (TimeControl.next model_next) fuel tc0)).
Proof.
  intros Hraise. unfold TimeControl.__init__. simpl. rewrite Hraise.
  unfold simple_delay_timing.
  destruct (range steps) as [r | e'] eqn:Hr; simpl;
    eexists _, _, _; (split; [reflexivity |]); (split; [reflexivity |]);
    (split; [reflexivity |]); (split; [reflexivity |]).
  - split; [by left |]. split; [by intros r' [= <-] |].
    intros fuel.
    split; [by apply TimeControl_consume_delay |].
    split; [by apply TimeControl_consume_delay |].
    etransitivity; [| symmetry]; by apply TimeControl_consume_delay.
  - split; [right; split; [by eexists | done] |]. split; [done |].
    intros fuel.
    split; [by apply TimeControl_consume_delay |].
    split; [by apply TimeControl_consume_delay |].
    etransitivity; [| symmetry]; by apply TimeControl_consume_delay.
Qed.

End TimeControlProperties.

Lemma TimeControl_raising_model_as_no_model_witness :
  let timing : value → value → value → value → result unit :=
    λ _ _ _ _, Raise (Raised "no weather") in
  let model_next : unit → result TimeControlSet.t * unit :=
    λ it, (Raise StopIteration, it) in
  timing (Int 2) (Int 4) None_ None_ = Raise (Raised "no weather")
  ∧ ∃ tc tc0,
      TimeControl.__init__ (Int 2) (Int 4) (TimeControl.Model (Some timing))
                           None_ None_
      = ([TimeControl.warning], Ok tc)
      ∧ TimeControl.__init__ (Int 2) (Int 4) TimeControl.NoModel None_ None_
        = ([], Ok tc0)
      ∧ TimeControl._timing tc
        = TimeControl.FromDelay (ModelIter := unit)
            (Generator (Int 2) [0; 1; 2; 3]%Z)
      ∧ TimeControl._timing tc0
        = TimeControl.FromDelay (ModelIter := unit)
            (Generator (Int 2) [0; 1; 2; 3]%Z)
      ∧ yielded (consume (TimeControl.next model_next) 5 tc)
        = yielded (consume generator_next 5 (Generator (Int 2) [0; 1; 2; 3]%Z)).
Proof.
  intros timing model_next. split; [reflexivity |].
  destruct (TimeControl_raising_model_as_no_model model_next timing
              (Int 2) (Int 4) None_ None_ (Raised "no weather") eq_refl)
    as (tc & tc0 & g & H1 & H2 & H3 & H4 & _ & Hg & Hc).
  rewrite (Hg [0; 1; 2; 3]%Z eq_refl) in *.
  exists tc, tc0. split; [exact H1 |]. split; [exact H2 |].
  split; [exact H3 |]. split; [exact H4 |]. exact (proj1 (Hc 5)).
Defined.

(** ** delay_to_timing *)

Lemma foldl_app_concat {A} (xs : list (list A)) (x : list A) :
  foldl (λ x y, x ++ y) x xs = x ++ concat xs.
Proof.
  revert x. induction xs as [| y xs IH]; intros x; simpl.
  - by rewrite app_nil_r.
  - by rewrite IH, app_assoc.
Qed.

Lemma reduce_concat {A} (blocks : list (list A)) :
  blocks ≠ [] → reduce (λ x y, x ++ y) blocks = Ok (concat blocks).
Proof.
  destruct blocks as [| b bs]; [done |]. intros _. simpl.
  by rewrite foldl_app_concat.
Qed.

Lemma int_nonneg (d : Q) : (0 < d)%Q → (0 ≤ int d)%Z.
Proof.
  intros H. unfold int. apply Z.quot_pos; [| lia].
  unfold Qlt in H. simpl in H. lia.
Qed.

(** One block of the comprehension: [n] entries, the first one [dat]. *)
Lemma block_entries (dat : value) (n : Z) :
  let block := (λ i : Z, if decide (i = 0%Z) then dat else Bool false)
                 <$> range_int n in
  length block = Z.to_nat n
  ∧ (0 < length block → block !! 0 = Some dat)
  ∧ (∀ j, 0 < j < length block → block !! j = Some (Bool false)).
Proof.
  simpl. unfold range_int. rewrite length_fmap, length_seqZ.
  split; [done |]. split.
  - intros Hn. rewrite list_lookup_fmap, (lookup_seqZ_lt 0 n 0) by lia. done.
  - intros j Hj. rewrite list_lookup_fmap, (lookup_seqZ_lt 0 n j) by lia.
    simpl. case_decide; [lia | done].
Qed.

Lemma length_concat_blocks (delays : list Q) (blocks : list (list value)) :
  length blocks = length delays →
  (∀ i d block, delays !! i = Some d → blocks !! i = Some block →
     length block = Z.to_nat (int d)) →
  length (concat blocks) = sum_list_with (λ d, Z.to_nat (int d)) delays.
Proof.
  revert blocks. induction delays as [| d delays IH]; intros [| b blocks] Hlen H;
    simpl in *; try done.
  rewrite length_app, (H 0 d b) by done.
  f_equal. apply IH; [lia |].
  intros i d' b' Hd Hb. by apply (H (S i)).
Qed.

(** C3, as amended. For every non-empty list [delays] of positive numbers
    (with an optional [datas] of the same length), [delay_to_timing]
    returns the concatenation, in order, of one block per index [i]: the
    block has [int(delays[i])] entries, its entry 0 is [datas[i]] (or [True]
    without [datas]) and its other entries are [False]; a duration that
    truncates to 0 gives an empty block; the total length is the sum of the
    truncated durations. *)
Theorem delay_to_timing_blocks (delays : list Q) (datas : option (list value)) :
  delays ≠ [] →
  Forall (λ d, (0 < d)%Q) delays →
  (∀ ds, datas = Some ds → length ds = length delays) →
  ∃ blocks : list (list value),
    delay_to_timing delays datas = Ok (concat blocks)
    ∧ length blocks = length delays
    ∧ (∀ i d, delays !! i = Some d →
         ∃ block,
           blocks !! i = Some block
           ∧ Z.of_nat (length block) = int d
           ∧ (0 < length block →
                block !! 0 = match datas with
                             | Some ds => ds !! i
                             | None => Some (Bool true)
                             end)
           ∧ (∀ j, 0 < j < length block → block !! j = Some (Bool false))
           ∧ (int d = 0%Z → block = []))
    ∧ length (concat blocks) = sum_list_with (λ d, Z.to_nat (int d)) delays.
Proof.
  intros Hne Hpos Hlen.
  set (mk := λ (dat : value) (d : Q),
         (λ i : Z, if decide (i = 0%Z) then dat else Bool false)
           <$> range_int (int d)).
  set (blocks := match datas with
                 | Some ds => (λ '(d, dat), mk dat d) <$> zip delays ds
                 | None => mk (Bool true) <$> delays
                 end).
  assert (Hblocks : length blocks = length delays).
  { subst blocks. destruct datas as [ds |].
    - rewrite length_fmap, length_zip_with_l_eq; [done |].
      symmetry. by apply Hlen.
    - by rewrite length_fmap. }
  assert (Hpoint : ∀ i d, delays !! i = Some d →
            ∃ dat, blocks !! i = Some (mk dat d)
                   ∧ Some dat = match datas with
                                | Some ds => ds !! i
                                | None => Some (Bool true)
                                end).
  { intros i d Hd. subst blocks. destruct datas as [ds |].
    - destruct (lookup_lt_is_Some_2 ds i) as [dat Hdat].
      { rewrite (Hlen ds eq_refl). by eapply lookup_lt_Some. }
      exists dat. split; [| done].
      rewrite list_lookup_fmap, lookup_zip_with, Hd, Hdat. done.
    - exists (Bool true). split; [| done].
      by rewrite list_lookup_fmap, Hd. }
  exists blocks. split; [| split; [done | split]].
  - unfold delay_to_timing. fold mk.
    replace (match datas with
             | Some datas0 => (λ '(d, dat), mk dat d) <$> zip delays datas0
             | None => (λ d : Q, mk (Bool true) d) <$> delays
             end) with blocks by (subst blocks; by destruct datas).
    apply reduce_concat. intros Hnil. rewrite Hnil in Hblocks.
    destruct delays; [done | discriminate].
  - intros i d Hd. destruct (Hpoint i d Hd) as (dat & Hb & Hdat).
    exists (mk dat d). split; [done |].
    destruct (block_entries dat (int d)) as (Hl & H0 & Hj). fold (mk dat d) in *.
    assert (Hd0 : (0 < d)%Q).
    { eapply (proj1 (Forall_lookup _ _) Hpos); eauto. }
    pose proof (int_nonneg d Hd0) as Hnn.
    split; [rewrite Hl; lia |]. split; [| split].
    + intros Hlt. rewrite <- Hdat. by apply H0.
    + done.
    + intros Hz. apply length_zero_iff_nil. rewrite Hl, Hz. done.
  - apply length_concat_blocks; [done |].
    intros i d block Hd Hb. destruct (Hpoint i d Hd) as (dat & Hb' & _).
    rewrite Hb' in Hb. injection Hb as <-.
    apply (block_entries dat (int d)).
Qed.

Lemma delay_to_timing_blocks_witness :
  ([2 # 1; 1 # 2; 7 # 2]%Q : list Q) ≠ []
  ∧ Forall (λ d, (0 < d)%Q) [2 # 1; 1 # 2; 7 # 2]%Q
  ∧ (∀ ds, Some [Int 7; Int 8; None_] = Some ds →
       length ds = length ([2 # 1; 1 # 2; 7 # 2]%Q : list Q))
  ∧ ∃ blocks : list (list value),
      delay_to_timing [2 # 1; 1 # 2; 7 # 2]%Q (Some [Int 7; Int 8; None_])
      = Ok (concat blocks)
      ∧ length blocks = 3.
Proof.
  assert (H1 : ([2 # 1; 1 # 2; 7 # 2]%Q : list Q) ≠ []) by discriminate.
  assert (H2 : Forall (λ d, (0 < d)%Q) [2 # 1; 1 # 2; 7 # 2]%Q)
    by (repeat constructor).
  assert (H3 : ∀ ds, Some [Int 7; Int 8; None_] = Some ds →
                 length ds = length ([2 # 1; 1 # 2; 7 # 2]%Q : list Q))
    by (intros ds [= <-]; reflexivity).
  split; [exact H1 |]. split; [exact H2 |]. split; [exact H3 |].
  destruct (delay_to_timing_blocks _ _ H1 H2 H3) as (blocks & Hb & Hl & _).
  exists blocks. split; [exact Hb | exact Hl].
Defined.

(** C3 as stated fails on the empty list, a list of positive numbers all
    the same: the concatenation of no block is the empty sequence, and
    [delay_to_timing] raises instead of returning it. *)
Lemma delay_to_timing_blocks_counterexample :
  Forall (λ d, (0 < d)%Q) ([] : list Q)
  ∧ delay_to_timing [] None ≠ Ok (concat [])
  ∧ delay_to_timing [] (Some []) ≠ Ok (concat []).
Proof. split; [constructor |]. split; discriminate. Qed.

(** ** Timing *)

Lemma Timing_advance_config (n : nat) (t : Timing.t) :
  Timing.delays (advance Timing.next n t) = Timing.delays t
  ∧ Timing.datas (advance Timing.next n t) = Timing.datas t.
Proof.
  induction n as [| n [IHd IHs]]; [done |].
  unfold advance in *. simpl.
  set (t' := Nat.iter n _ t) in *.
  unfold Timing.next. destruct (Timing._timing t'); simpl; auto.
Qed.

Lemma Timing_init_config (delays : list Q) (datas : option (list value))
    (t : Timing.t) :
  Timing.__init__ delays datas = Ok t →
  Timing.delays t = delays ∧ Timing.datas t = datas.
Proof.
  unfold Timing.__init__. destruct (delay_to_timing delays datas); [| done].
  simpl. intros [= <-]. done.
Qed.

Lemma Timing_consume (d : list Q) (ds : option (list value))
    (elems : list TimingElement.t) (fuel : nat) :
  length elems < fuel →
  consume Timing.next fuel (Timing.Build d ds elems)
  = Some (elems, StopIteration, Timing.Build d ds []).
Proof.
  revert fuel. induction elems as [| x elems IH]; intros [| fuel] H;
    simpl in *; try lia; [done |].
  unfold Timing.next. simpl. by rewrite IH by lia.
Qed.

Lemma nonzero_bool_decide (v : value) :
  TimingElement.__nonzero__ (TimingElement.__init__ v)
  = bool_decide (v ≠ Bool false).
Proof.
  unfold TimingElement.__nonzero__, TimingElement.__init__. simpl.
  by case_decide; case_bool_decide.
Qed.

(** A [Timing] is constructed from every non-empty [delays], with [datas]
    absent or of the same length. *)
Lemma Timing_init_ok (delays : list Q) (datas : option (list value)) :
  delays ≠ [] →
  (∀ ds, datas = Some ds → length ds = length delays) →
  ∃ t, Timing.__init__ delays datas = Ok t.
Proof.
  intros Hne Hlen. unfold Timing.__init__, delay_to_timing.
  destruct delays as [| d delays]; [done |].
  destruct datas as [[| dat ds] |].
  - by specialize (Hlen [] eq_refl).
  - by eexists.
  - by eexists.
Qed.

(** C6. A [Timing] made from [delays] and [datas] can be restarted after
    any number of advances, and again after any further number: each
    restart gives an iterator that yields, from the start and up to its end,
    the same elements, whose truth values are those of the whole sequence
    [delay_to_timing(delays, datas)]. *)
Theorem Timing_restart_reproduces
    (delays : list Q) (datas : option (list value)) (t : Timing.t) (n m : nat) :
  Timing.__init__ delays datas = Ok t →
  ∃ timing it1 it2 elems end1 end2,
    delay_to_timing delays datas = Ok timing
    ∧ Timing.__iter__ (advance Timing.next n t) = Ok it1
    ∧ Timing.__iter__ (advance Timing.next m (advance Timing.next n t)) = Ok it2
    ∧ consume Timing.next (S (length timing)) it1
      = Some (elems, StopIteration, end1)
    ∧ consume Timing.next (S (length timing)) it2
      = Some (elems, StopIteration, end2)
    ∧ TimingElement.__nonzero__ <$> elems
      = (λ v, bool_decide (v ≠ Bool false)) <$> timing.
Proof.
  intros Hinit.
  destruct (Timing_init_config _ _ _ Hinit) as [Hd Hs].
  destruct (Timing_advance_config n t) as [Hd1 Hs1].
  destruct (Timing_advance_config m (advance Timing.next n t)) as [Hd2 Hs2].
  unfold Timing.__iter__.
  rewrite Hd2, Hs2, Hd1, Hs1, Hd, Hs, Hinit.
  unfold Timing.__init__ in Hinit.
  destruct (delay_to_timing delays datas) as [timing | e]; [| done].
  simpl in Hinit. injection Hinit as <-.
  exists timing. eexists _, _, _, _, _.
  split; [done |]. split; [done |]. split; [done |].
  rewrite Timing_consume by (rewrite length_fmap; lia).
  split; [done |]. split; [done |].
  rewrite <- list_fmap_compose. apply list_fmap_ext.
  intros i v _. apply nonzero_bool_decide.
Qed.

Lemma Timing_restart_reproduces_witness :
  ∃ t, Timing.__init__ [2 # 1; 3 # 1]%Q (Some [Int 7; Bool false]) = Ok t
  ∧ ∃ it1 it2 elems end1 end2,
      Timing.__iter__ (advance Timing.next 1 t) = Ok it1
      ∧ Timing.__iter__ (advance Timing.next 3 (advance Timing.next 1 t)) = Ok it2
      ∧ consume Timing.next 6 it1 = Some (elems, StopIteration, end1)
      ∧ consume Timing.next 6 it2 = Some (elems, StopIteration, end2)
      ∧ TimingElement.__nonzero__ <$> elems = [true; false; false; false; false].
Proof.
  eexists. split; [reflexivity |].
  destruct (Timing_restart_reproduces
              [2 # 1; 3 # 1]%Q (Some [Int 7; Bool false]) _ 1 3 eq_refl)
    as (timing & it1 & it2 & elems & end1 & end2 & Ht & H1 & H2 & H3 & H4 & H5).
  injection Ht as <-.
  exists it1, it2, elems, end1, end2. auto.
Defined.

(** ** TimeControler *)

Lemma dict_snoc {V} (pairs : list (string * V)) (k : string) (x : V) :
  dict (pairs ++ [(k, x)]) = <[k := x]> (dict pairs).
Proof. unfold dict. by rewrite foldl_snoc. Qed.

Lemma dict_size_nonempty {V} (pairs : list (string * V)) :
  pairs ≠ [] → size (dict pairs) ≠ 0.
Proof.
  destruct pairs as [| p pairs] using rev_ind; [done |]. intros _.
  destruct p as [k x]. rewrite dict_snoc, map_size_empty_iff.
  apply insert_non_empty.
Qed.

Lemma dict_list_to_map {V} (pairs : list (string * V)) :
  NoDup pairs.*1 → dict pairs = list_to_map pairs.
Proof.
  induction pairs as [| [k x] pairs IH] using rev_ind; [done |].
  rewrite fmap_app, NoDup_app. simpl. intros (Hnd & Hk & _).
  rewrite dict_snoc, IH by done. symmetry. apply list_to_map_snoc.
  intros Hin. apply (Hk k Hin). constructor.
Qed.

Section TimeControlerProperties.

Context {A : Type}.

Implicit Types (td rest : list (string * TimeControler.stream A)).
Implicit Types (v : TimeControler.stream A).

Lemma py_iter_live v :
  TimeControler.live (TimeControler.py_iter v)
  ∧ TimeControler.remaining (TimeControler.py_iter v) = TimeControler.items v.
Proof. by destruct v. Qed.

(** The first stream has nothing left: [dict] gets no pair at all, and no
    stream is advanced. *)
Lemma pull_first_exhausted k v rest :
  TimeControler.live v → TimeControler.remaining v = [] →
  TimeControler.pull ((k, v) :: rest) = (Ok [], (k, v) :: rest).
Proof. destruct v as [l | [| x r] | all [| x r]]; simpl; done. Qed.

(** Live iterators stay live, and raise nothing but the end of sequence. *)
Lemma pull_live td :
  Forall (λ kv, TimeControler.live kv.2) td →
  ∃ pairs td',
    TimeControler.pull td = (Ok pairs, td')
    ∧ Forall (λ kv, TimeControler.live kv.2) td'.
Proof.
  induction td as [| [k v] td IH]; intros H.
  - by exists [], [].
  - apply Forall_cons in H as [Hv Htd]. destruct (IH Htd) as (pairs & td' & Hp & Hl).
    destruct v as [l | [| x r] | all [| x r]]; simpl in *; try done;
      try rewrite Hp; eexists _, _; (split; [reflexivity |]);
      constructor; done.
Qed.

(** The first stream has an item left: it is advanced and leads the pairs. *)
Lemma pull_first_live k v rest x r :
  TimeControler.live v → TimeControler.remaining v = x :: r →
  Forall (λ kv, TimeControler.live kv.2) rest →
  ∃ pairs v' rest',
    TimeControler.pull ((k, v) :: rest) = (Ok ((k, x) :: pairs), (k, v') :: rest')
    ∧ TimeControler.live v' ∧ TimeControler.remaining v' = r
    ∧ Forall (λ kv, TimeControler.live kv.2) rest'.
Proof.
  intros Hv Hr Hrest. destruct (pull_live rest Hrest) as (pairs & rest' & Hp & Hl).
  destruct v as [l | rem | all rem]; simpl in *; try done; subst rem;
    rewrite Hp; eexists _, _, _; (split; [reflexivity |]); done.
Qed.

(** Every stream has an item left: one pair per stream, in order, and every
    stream is advanced by one item. *)
Lemma pull_all_live td :
  Forall (λ kv, TimeControler.live kv.2 ∧ TimeControler.remaining kv.2 ≠ []) td →
  ∃ pairs td',
    TimeControler.pull td = (Ok pairs, td')
    ∧ Forall2 (λ kv p, p.1 = kv.1 ∧ TimeControler.remaining kv.2 !! 0 = Some p.2)
              td pairs
    ∧ Forall2 (λ kv kv', kv'.1 = kv.1 ∧ TimeControler.live kv'.2
                 ∧ TimeControler.remaining kv'.2
                   = tail (TimeControler.remaining kv.2))
              td td'.
Proof.
  induction td as [| [k v] td IH]; intros H.
  - exists [], []. repeat split; constructor.
  - apply Forall_cons in H as [[Hv Hne] Htd].
    destruct (IH Htd) as (pairs & td' & Hp & H1 & H2).
    destruct v as [l | [| x r] | all [| x r]]; simpl in *; try done;
      rewrite Hp; eexists _, _; (split; [reflexivity |]);
      split; constructor; done.
Qed.

Lemma consume_raise {S B} (next : S → result B * S) (fuel : nat) (s s' : S) (e : exn) :
  next s = (Raise e, s') → consume next (Datatypes.S fuel) s = Some ([], e, s').
Proof. intros H. simpl. by rewrite H. Qed.

Lemma consume_ok {S B} (next : S → result B * S) (fuel : nat) (s s' s'' : S)
    (x : B) (xs : list B) (e : exn) :
  next s = (Ok x, s') → consume next fuel s' = Some (xs, e, s'') →
  consume next (Datatypes.S fuel) s = Some (x :: xs, e, s'').
Proof. intros H1 H2. simpl. by rewrite H1, H2. Qed.

Lemma consume_ok_inv {S B} (next : S → result B * S) (fuel : nat) (s s' s'' : S)
    (x : B) (ds : list B) (e : exn) :
  next s = (Ok x, s') → consume next fuel s = Some (ds, e, s'') →
  ∃ fuel' xs, ds = x :: xs ∧ consume next fuel' s' = Some (xs, e, s'').
Proof.
  intros H1 H2. destruct fuel as [| fuel]; [done |]. simpl in H2.
  rewrite H1 in H2.
  destruct (consume next fuel s') as [[[xs e'] s3] |] eqn:Hc; [| done].
  injection H2 as <- <- <-. by exists fuel, xs.
Qed.

Lemma next_pairs td num pairs td' :
  TimeControler.pull td = (Ok pairs, td') → pairs ≠ [] →
  TimeControler.next (TimeControler.Build td num)
  = (Ok (dict pairs), TimeControler.Build td' (num + 1)).
Proof.
  intros Hp Hne. unfold TimeControler.next. simpl. rewrite Hp.
  destruct (decide (size (dict pairs) = 0)) as [H0 | _]; [| done].
  by apply dict_size_nonempty in H0.
Qed.

(** The loop over a controler of live iterators ends, with the end of
    sequence, when its first stream is exhausted. *)
Lemma consume_until_first_exhausted (n : nat) :
  ∀ k v rest num,
    TimeControler.live v →
    Forall (λ kv, TimeControler.live kv.2) rest →
    length (TimeControler.remaining v) = n →
    ∃ ds c',
      consume TimeControler.next (S n) (TimeControler.Build ((k, v) :: rest) num)
      = Some (ds, StopIteration, c')
      ∧ length ds = n
      ∧ TimeControler.numiter c' = (num + Z.of_nat n)%Z.
Proof.
  induction n as [| n IH]; intros k v rest num Hv Hrest Hlen.
  - apply length_zero_iff_nil in Hlen.
    exists [], (TimeControler.Build ((k, v) :: rest) num).
    split; [| split; [done | simpl; lia]].
    apply consume_raise. unfold TimeControler.next. simpl TimeControler._timedict.
    by rewrite (pull_first_exhausted k v rest Hv Hlen).
  - destruct (TimeControler.remaining v) as [| x r] eqn:Hr; [done |].
    destruct (pull_first_live k v rest x r Hv Hr Hrest)
      as (pairs & v' & rest' & Hp & Hv' & Hr' & Hrest').
    destruct (IH k v' rest' (num + 1)%Z Hv' Hrest') as (ds & c' & Hc & Hl & Hn).
    { rewrite Hr'. simpl in Hlen. lia. }
    exists (dict ((k, x) :: pairs) :: ds), c'. split; [| split].
    + eapply consume_ok; [| exact Hc]. by apply next_pairs.
    + simpl. by rewrite Hl.
    + rewrite Hn. lia.
Qed.

(** As long as every stream has an item left, a step of the loop is the
    mapping of the next item of each stream. *)
Lemma consume_full_steps (i : nat) :
  ∀ fuel td num ds e c',
    td ≠ [] →
    Forall (λ kv, TimeControler.live kv.2
                  ∧ i < length (TimeControler.remaining kv.2)) td →
    consume TimeControler.next fuel (TimeControler.Build td num) = Some (ds, e, c') →
    ∃ pairs,
      ds !! i = Some (dict pairs)
      ∧ Forall2 (λ kv p, p.1 = kv.1 ∧ TimeControler.remaining kv.2 !! i = Some p.2)
                td pairs.
Proof.
  induction i as [| i IH]; intros fuel td num ds e c' Hne Hall Hc.
  all: destruct (pull_all_live td) as (pairs & td' & Hp & H1 & H2);
    [ eapply Forall_impl; [exact Hall |]; intros kv [Hl Hlt]; split; [done |];
      intros Hnil; rewrite Hnil in Hlt; simpl in Hlt; lia | ].
  all: assert (Hpne : pairs ≠ [])
    by (intros ->; apply Forall2_length in H1; by destruct td).
  all: destruct (consume_ok_inv _ _ _ _ _ _ _ _ (next_pairs td num pairs td' Hp Hpne) Hc)
    as (fuel' & xs & -> & Hc').
  - exists pairs. split; [done | exact H1].
  - destruct (IH fuel' td' (num + 1)%Z xs e c') as (pairs' & Hi & H3).
    + intros ->. apply Forall2_length in H2. by destruct td.
    + apply Forall_forall. intros kv' Hin.
      apply list_elem_of_lookup_1 in Hin as [j Hj].
      destruct (Forall2_lookup_r _ _ _ _ _ H2 Hj) as (kv & Hkv & _ & Hl & Hr).
      split; [done |]. rewrite Hr.
      pose proof (proj1 (Forall_lookup _ _) Hall j kv Hkv) as [_ Hlt].
      destruct (TimeControler.remaining kv.2); simpl in *; lia.
    + done.
    + exists pairs'. split; [done |].
      eapply Forall2_trans; [| exact H2 | exact H3].
      intros kv kv' p (Hk & _ & Hr) (Hk' & Hi'). split; [congruence |].
      rewrite Hr, lookup_tail in Hi'. done.
Qed.

Lemma full_step_mapping (kwd : list (string * TimeControler.stream A))
    (pairs : list (string * A)) (i : nat) :
  NoDup kwd.*1 →
  Forall2 (λ kv p, p.1 = kv.1 ∧ TimeControler.remaining kv.2 !! i = Some p.2)
          ((λ kv, (kv.1, TimeControler.py_iter kv.2)) <$> kwd) pairs →
  size (dict pairs) = length kwd
  ∧ ∀ k v, (k, v) ∈ kwd → dict pairs !! k = TimeControler.items v !! i.
Proof.
  intros Hnd H. apply Forall2_fmap_l in H.
  assert (Hkeys : pairs.*1 = kwd.*1).
  { clear Hnd. induction H as [| kv p kwd' pairs' [Hk _] _ IH]; [done |].
    rewrite !fmap_cons. by rewrite Hk, IH. }
  rewrite dict_list_to_map by (by rewrite Hkeys).
  split.
  - rewrite map_size_list_to_map by (by rewrite Hkeys).
    symmetry. by eapply Forall2_length.
  - intros k v Hin. apply list_elem_of_lookup_1 in Hin as [j Hj].
    destruct (Forall2_lookup_l _ _ _ _ _ H Hj) as ([k' x] & Hp & Hk & Hx).
    simpl in *. subst k'.
    rewrite (proj2 (py_iter_live v)) in Hx. rewrite Hx.
    apply elem_of_list_to_map_1; [by rewrite Hkeys |].
    by eapply list_elem_of_lookup_2.
Qed.

(** The steps of a loop over a restarted controler while each stream still
    has an item: each is a mapping with exactly one item per stream, the next
    item of each; when the stream that the mapping iterates first is a
    shortest one, these are all the steps. *)
Theorem TimeControler_joint_steps
    (k0 : string) (v0 : TimeControler.stream A)
    (rest : list (string * TimeControler.stream A)) :
  let kwd := (k0, v0) :: rest in
  NoDup kwd.*1 →
  ∃ ds c',
    consume TimeControler.next (S (length (TimeControler.items v0)))
            (TimeControler.__iter__ (TimeControler.__init__ kwd))
    = Some (ds, StopIteration, c')
    ∧ (∀ i, (∀ k v, (k, v) ∈ kwd → i < length (TimeControler.items v)) →
         ∃ d, ds !! i = Some d
              ∧ size d = length kwd
              ∧ ∀ k v, (k, v) ∈ kwd → d !! k = TimeControler.items v !! i)
    ∧ ((∀ k v, (k, v) ∈ kwd →
          length (TimeControler.items v0) ≤ length (TimeControler.items v)) →
       length ds = length (TimeControler.items v0)
       ∧ TimeControler.numiter c' = Z.of_nat (length ds)
       ∧ Forall (λ d, size d = length kwd) ds).
Proof.
  intros kwd Hnd.
  set (td := (λ kv : string * TimeControler.stream A,
                (kv.1, TimeControler.py_iter kv.2)) <$> kwd).
  assert (Hlive : Forall (λ kv, TimeControler.live kv.2) td).
  { apply Forall_fmap, Forall_forall. intros kv _. apply py_iter_live. }
  destruct (consume_until_first_exhausted
              (length (TimeControler.items v0)) k0 (TimeControler.py_iter v0)
              ((λ kv, (kv.1, TimeControler.py_iter kv.2)) <$> rest) 0%Z)
    as (ds & c' & Hc & Hlen & Hnum).
  { apply py_iter_live. }
  { by apply Forall_cons in Hlive as [_ ?]. }
  { by rewrite (proj2 (py_iter_live v0)). }
  assert (Hfull : ∀ i,
    (∀ k v, (k, v) ∈ kwd → i < length (TimeControler.items v)) →
    ∃ d, ds !! i = Some d ∧ size d = length kwd
         ∧ ∀ k v, (k, v) ∈ kwd → d !! k = TimeControler.items v !! i).
  { intros i Hi.
    destruct (consume_full_steps i (S (length (TimeControler.items v0)))
                td 0%Z ds StopIteration c') as (pairs & Hd & Hp).
    - done.
    - apply Forall_fmap, Forall_forall. intros [k v] Hin. simpl.
      split; [apply py_iter_live |].
      rewrite (proj2 (py_iter_live v)). by apply (Hi k).
    - exact Hc.
    - destruct (full_step_mapping kwd pairs i Hnd Hp) as [Hs Hl].
      exists (dict pairs). done. }
  exists ds, c'. split; [exact Hc |]. split; [exact Hfull |].
  intros Hmin. split; [done |]. split; [lia |].
  apply Forall_lookup. intros j d Hj.
  destruct (Hfull j) as (d' & Hd' & Hs & _).
  - intros k v Hin. apply lookup_lt_Some in Hj. specialize (Hmin k v Hin). lia.
  - congruence.
Qed.

End TimeControlerProperties.

Lemma TimeControler_joint_steps_witness :
  let kwd := [("a"%string, TimeControler.Seq [10; 11; 12]%Z);
              ("b"%string, TimeControler.Seq [20; 21; 22; 23; 24]%Z)] in
  NoDup kwd.*1
  ∧ ∃ ds c',
      consume TimeControler.next 4
              (TimeControler.__iter__ (TimeControler.__init__ kwd))
      = Some (ds, StopIteration, c')
      ∧ length ds = 3
      ∧ Forall (λ d, size d = 2) ds.
Proof.
  intros kwd.
  assert (Hnd : NoDup kwd.*1) by (apply (bool_decide_unpack _); vm_compute; exact I).
  split; [exact Hnd |].
  destruct (TimeControler_joint_steps
              "a" (TimeControler.Seq [10; 11; 12]%Z)
              [("b"%string, TimeControler.Seq [20; 21; 22; 23; 24]%Z)] Hnd)
    as (ds & c' & Hc & _ & Hmin).
  exists ds, c'. split; [exact Hc |].
  destruct Hmin as (Hl & _ & Hall).
  - intros k v Hin.
    repeat (apply elem_of_cons in Hin as [[= -> ->] | Hin]; [simpl; lia |]).
    by apply elem_of_nil in Hin.
  - split; [exact Hl | exact Hall].
Defined.

(** C1. [TimeControler(a=..., b=...)] with 5 items under [a] and 3 under
    [b], which the mapping iterates in the order [a], [b]: the loop takes 5
    steps, not 3, before the end of sequence. Its first three mappings hold
    one item per stream; the fourth and the fifth hold an item of [a] only,
    [b] being exhausted: [{a: 13}] and [{a: 14}]. *)
Theorem TimeControler_longer_stream_first :
  let kwd := [("a"%string, TimeControler.Seq [10; 11; 12; 13; 14]%Z);
              ("b"%string, TimeControler.Seq [20; 21; 22]%Z)] in
  ∃ ds c',
    consume TimeControler.next 6
            (TimeControler.__iter__ (TimeControler.__init__ kwd))
    = Some (ds, StopIteration, c')
    ∧ length ds = 5
    ∧ length ds ≠ 3
    ∧ size <$> ds = [2; 2; 2; 1; 1]
    ∧ (λ d : gmap string Z, d !! "a"%string) <$> ds
      = [Some 10%Z; Some 11%Z; Some 12%Z; Some 13%Z; Some 14%Z]
    ∧ (λ d : gmap string Z, d !! "b"%string) <$> ds
      = [Some 20%Z; Some 21%Z; Some 22%Z; None; None]
    ∧ TimeControler.numiter c' = 5%Z.
Proof.
  intros kwd. eexists _, _. split; [vm_compute; reflexivity |].
  vm_compute. repeat split. discriminate.
Qed.

(** ** time_split *)

(** [x % d == 0] holds exactly for the multiples of [d]. *)
Lemma fmod_zero_iff (x : Q) (d : Z) :
  d ≠ 0%Z →
  Qeq_bool (x - inject_Z (Qfloor (x / inject_Z d)) * inject_Z d) 0 = true
  ↔ ∃ k : Z, (x == inject_Z (k * d))%Q.
Proof.
  intros Hd. rewrite Qeq_bool_iff.
  assert (Hd' : ¬ (inject_Z d == 0)%Q).
  { change 0%Q with (inject_Z 0). rewrite inject_Z_injective. done. }
  split.
  - intros H. exists (Qfloor (x / inject_Z d)). rewrite inject_Z_mult.
    rewrite <- (Qplus_0_r (_ * _)), <- H. ring.
  - intros [k Hk]. rewrite inject_Z_mult in Hk.
    assert (Hq : (x / inject_Z d == inject_Z k)%Q).
    { rewrite Hk. field. done. }
    rewrite Hq, Qfloor_Z, Hk. ring.
Qed.

Lemma hours_pos (delta : Z) : (0 < delta)%Z → (0 < hours delta)%Q.
Proof.
  intros H. unfold hours. apply Qlt_shift_div_l; [reflexivity |].
  rewrite Qmult_0_l. change 0%Q with (inject_Z 0). by rewrite <- Zlt_Qlt.
Qed.

Lemma comprehension_ok {A B} (f : A → result B) (g : A → B) (l : list A) :
  (∀ x, x ∈ l → f x = Ok (g x)) → comprehension f l = Ok (g <$> l).
Proof.
  induction l as [| x l IH]; intros H; [done |]. simpl.
  rewrite (H x) by constructor. simpl.
  rewrite IH by (intros y Hy; apply H; by constructor). done.
Qed.

Lemma mask_fmap (f : Z → bool) (l : list Z) :
  mask l (f <$> l) = List.filter f l.
Proof.
  unfold mask. induction l as [| x l IH]; [done |].
  rewrite fmap_cons. cbn [zip_with List.filter snd].
  destruct (f x); [rewrite fmap_cons |]; by rewrite IH.
Qed.

Lemma filter_sublist (f : Z → bool) (l : list Z) :
  List.filter f l `sublist_of` l.
Proof.
  induction l as [| x l IH]; simpl; [constructor |].
  destruct (f x); by constructor.
Qed.

Lemma elem_of_filter_bool (f : Z → bool) (l : list Z) (x : Z) :
  x ∈ List.filter f l ↔ x ∈ l ∧ f x = true.
Proof. rewrite !list_elem_of_In. apply filter_In. Qed.

Lemma getitem_first (t0 : Z) (later : list Z) : getitem (t0 :: later) 0 = Ok t0.
Proof.
  unfold getitem. rewrite decide_True; [done |]. simpl length. lia.
Qed.

Lemma getitem_last (l : list Z) (tn : Z) :
  last l = Some tn → getitem l (-1) = Ok tn.
Proof.
  intros H. assert (Hne : l ≠ []) by (intros ->; done).
  assert (0 < length l) by (destruct l; [done | simpl; lia]).
  unfold getitem. rewrite decide_False by lia. rewrite decide_True by lia.
  rewrite last_lookup in H.
  replace (Z.to_nat (Z.of_nat (length l) + -1)) with (pred (length l)) by lia.
  by rewrite H.
Qed.

Lemma sublist_StronglySorted (l1 l2 : list Z) :
  l1 `sublist_of` l2 → StronglySorted Z.lt l2 → StronglySorted Z.lt l1.
Proof.
  induction 1 as [| x l1 l2 Hs IH | x l1 l2 Hs IH]; intros H.
  - done.
  - apply StronglySorted_cons in H as [Hx H]. apply StronglySorted_cons.
    split; [| by apply IH]. apply Forall_forall. intros y Hy.
    eapply (proj1 (Forall_forall _ _) Hx), elem_of_sublist; eauto.
  - apply StronglySorted_cons in H as [_ H]. by apply IH.
Qed.

Lemma StronglySorted_adjacent (l : list Z) (i : nat) (x y : Z) :
  StronglySorted Z.lt l → l !! i = Some x → l !! S i = Some y → (x < y)%Z.
Proof.
  revert i. induction l as [| z l IH]; intros i H Hx Hy; [done |].
  apply StronglySorted_cons in H as [Hz H]. destruct i as [| i]; simpl in *.
  - injection Hx as ->. eapply (proj1 (Forall_lookup _ _) Hz); eauto.
  - by eapply IH.
Qed.

Lemma StronglySorted_le_last (l : list Z) (x tn : Z) :
  StronglySorted Z.lt l → last l = Some tn → x ∈ l → (x ≤ tn)%Z.
Proof.
  intros H Hl Hx. apply last_Some in Hl as [l' ->].
  apply elem_of_app in Hx as [Hx | Hx].
  - apply Z.lt_le_incl.
    eapply (StronglySorted_app_1_elem_of _ l' [tn]); [done | done | constructor].
  - apply list_elem_of_singleton in Hx as ->. lia.
Qed.

Lemma length_tail {A} (l : list A) : length (tail l) = pred (length l).
Proof. by destruct l. Qed.

Lemma unzip_ok {A B} (events : list (A * B)) :
  events ≠ [] → unzip events = Ok (fst <$> events, snd <$> events).
Proof. by destruct events. Qed.

Lemma ends_lookup (starts : list Z) (tn1 : Z) (i : nat) (start : Z) :
  starts !! i = Some start →
  ∃ end_, (tail starts ++ [tn1]) !! i = Some end_
          ∧ (starts !! S i = Some end_ ∨ (starts !! S i = None ∧ end_ = tn1)).
Proof.
  intros Hi. destruct (starts !! S i) as [e |] eqn:He.
  - exists e. split; [| by left].
    rewrite lookup_app_l, lookup_tail; [done |].
    apply lookup_lt_Some in He. rewrite length_tail. lia.
  - exists tn1. split; [| by right].
    apply lookup_ge_None in He. apply lookup_lt_Some in Hi.
    rewrite lookup_app_r by (rewrite length_tail; lia).
    rewrite length_tail. by replace (i - pred (length starts)) with 0 by lia.
Qed.

(** C4, as amended. For a non-empty, strictly increasing sequence of
    timestamps that carries a frequency, and a [delay] other than 0,
    [time_split] returns one block per selected start: the starts are, in
    order, exactly the timestamps whose offset from the first one, in hours,
    is an exact multiple of [delay]; a block ends at the next selected start,
    and the last block one period of the frequency past the final timestamp
    (one hour when the sequence is hourly); its delay is the time from its
    start to its end in hours, which is positive, and its data is the slice
    of the weather table between them, or [None] without a table. Over 24
    hourly timestamps, [delay=6] gives 4 blocks of 6 hours each. *)
Theorem time_split_blocks :
  (∀ (time_sequence : DatetimeIndex) (weather_data : option (Z → Z → value))
     (t0 : Z) (later : list Z) (period delay : Z),
     stamps time_sequence = t0 :: later →
     StronglySorted Z.lt (stamps time_sequence) →
     freq time_sequence = Some period → (0 < period)%Z → delay ≠ 0%Z →
     ∃ starts delays datas tn,
       time_split time_sequence weather_data delay = Ok (delays, datas)
       ∧ last (stamps time_sequence) = Some tn
       ∧ starts `sublist_of` stamps time_sequence
       ∧ (∀ t, t ∈ starts
               ↔ t ∈ stamps time_sequence
                 ∧ ∃ k : Z, (hours (t - t0) == inject_Z (k * delay))%Q)
       ∧ length delays = length starts
       ∧ length datas = length starts
       ∧ ∀ i start, starts !! i = Some start →
           ∃ end_,
             (starts !! S i = Some end_
              ∨ (starts !! S i = None ∧ end_ = (tn + period)%Z))
             ∧ delays !! i = Some (hours (end_ - start))
             ∧ datas !! i = Some (match weather_data with
                                  | Some truncate => truncate start end_
                                  | None => None_
                                  end)
             ∧ (0 < hours (end_ - start))%Q)
  ∧ (∃ delays datas,
       time_split (Build_index ((λ i, (3600 * i)%Z) <$> seqZ 0 24) (Some 3600%Z))
                  None 6
       = Ok (delays, datas)
       ∧ Qred <$> delays = [6; 6; 6; 6]%Q
       ∧ datas = [None_; None_; None_; None_]).
Proof.
  split; [| eexists _, _; split; [vm_compute; reflexivity |]; by vm_compute].
  intros idx weather_data t0 later period delay Hst Hsorted Hfreq Hperiod Hdelay.
  set (offset := λ t : Z, hours (t - t0)).
  set (test := λ x : Q,
         Qeq_bool (x - inject_Z (Qfloor (x / inject_Z delay)) * inject_Z delay) 0).
  set (starts := List.filter (test ∘ offset) (stamps idx)).
  destruct (proj2 (last_is_Some (stamps idx))) as [tn Hlast];
    [by rewrite Hst |].
  set (ends := tail starts ++ [(tn + period)%Z]).
  set (datum := λ start end_ : Z,
         match weather_data with
         | Some truncate => truncate start end_
         | None => None_
         end).
  set (events := (λ '(start, end_), (hours (end_ - start), datum start end_))
                   <$> zip starts ends).
  assert (Hsub : starts `sublist_of` stamps idx) by apply filter_sublist.
  assert (Hmem : ∀ t, t ∈ starts
            ↔ t ∈ stamps idx ∧ ∃ k : Z, (hours (t - t0) == inject_Z (k * delay))%Q).
  { intros t. subst starts. rewrite elem_of_filter_bool.
    unfold compose, test, offset. by rewrite fmod_zero_iff. }
  assert (Ht0 : t0 ∈ starts).
  { apply Hmem. split; [rewrite Hst; constructor |]. exists 0%Z.
    rewrite Z.sub_diag, Z.mul_0_l. reflexivity. }
  assert (Hlen : length ends = length starts).
  { subst ends. rewrite length_app, length_tail. simpl.
    destruct starts; [by apply elem_of_nil in Ht0 | simpl; lia]. }
  assert (Hsplit : time_split idx weather_data delay
                   = Ok (fst <$> events, snd <$> events)).
  { unfold time_split.
    rewrite (comprehension_ok _ offset)
      by (intros t _; by rewrite Hst, getitem_first).
    cbn [mbind result_bind].
    rewrite (comprehension_ok _ test)
      by (intros x _; unfold fmod; by rewrite decide_False).
    cbn [mbind result_bind].
    rewrite <- list_fmap_compose, mask_fmap. fold starts.
    rewrite (getitem_last _ _ Hlast). cbn [mbind result_bind].
    unfold Timestamp_add. rewrite Hfreq, Z.mul_1_l. fold ends.
    assert (Hne : ∀ f : Z * Z → Q * value, f <$> zip starts ends ≠ []).
    { intros f He. apply (f_equal length) in He.
      rewrite length_fmap, length_zip_with_l_eq in He by done.
      destruct starts; [by apply elem_of_nil in Ht0 | done]. }
    unfold events, datum. destruct weather_data; apply unzip_ok, Hne. }
  exists starts, (fst <$> events), (snd <$> events), tn.
  split; [exact Hsplit |]. split; [done |]. split; [done |]. split; [done |].
  assert (Hev : length events = length starts).
  { subst events. by rewrite length_fmap, length_zip_with_l_eq. }
  split; [by rewrite length_fmap |]. split; [by rewrite length_fmap |].
  intros i start Hi.
  destruct (ends_lookup starts (tn + period)%Z i start Hi) as (end_ & He & Hnext).
  fold ends in He. exists end_. split; [exact Hnext |].
  assert (Hevent : events !! i = Some (hours (end_ - start), datum start end_)).
  { subst events. by rewrite list_lookup_fmap, lookup_zip_with, Hi, He. }
  split; [by rewrite list_lookup_fmap, Hevent |].
  split; [by rewrite list_lookup_fmap, Hevent |].
  apply hours_pos.
  destruct Hnext as [Hn | [_ ->]].
  - pose proof (StronglySorted_adjacent starts i start end_
                  (sublist_StronglySorted _ _ Hsub Hsorted) Hi Hn). lia.
  - assert (start ≤ tn)%Z; [| lia].
    eapply StronglySorted_le_last; [done | done |].
    eapply elem_of_sublist; [| exact Hsub]. by eapply list_elem_of_lookup_2.
Qed.

Lemma time_split_blocks_witness :
  let index := Build_index [0; 3600; 7200; 10800; 14400]%Z (Some 3600%Z) in
  stamps index = 0%Z :: [3600; 7200; 10800; 14400]%Z
  ∧ StronglySorted Z.lt (stamps index)
  ∧ freq index = Some 3600%Z ∧ (0 < 3600)%Z ∧ 2%Z ≠ 0%Z
  ∧ ∃ (starts : list Z) delays datas tn,
      time_split index None 2 = Ok (delays, datas)
      ∧ last (stamps index) = Some tn
      ∧ length delays = length starts.
Proof.
  intros index.
  assert (H1 : stamps index = 0%Z :: [3600; 7200; 10800; 14400]%Z)
    by reflexivity.
  assert (H2 : StronglySorted Z.lt (stamps index))
    by (simpl; repeat constructor; lia).
  assert (H3 : freq index = Some 3600%Z) by reflexivity.
  assert (H4 : (0 < 3600)%Z) by lia.
  assert (H5 : 2%Z ≠ 0%Z) by lia.
  split; [exact H1 |]. split; [exact H2 |]. split; [exact H3 |].
  split; [exact H4 |]. split; [exact H5 |].
  destruct (proj1 time_split_blocks index None _ _ _ _ H1 H2 H3 H4 H5)
    as (starts & delays & datas & tn & Hs & Hl & _ & _ & Hd & _).
  exists starts, delays, datas, tn. split; [exact Hs |]. split; [exact Hl | exact Hd].
Defined.

(** C4 as stated fails on a sequence that is not hourly: over four
    timestamps two hours apart, with [delay=2], the final timestamp starts
    the last block, and that block lasts 2 hours: it ends two hours past the
    final timestamp, not one. *)
Lemma time_split_blocks_counterexample :
  let index := Build_index [0; 7200; 14400; 21600]%Z (Some 7200%Z) in
  StronglySorted Z.lt (stamps index)
  ∧ ∃ delays datas d,
      time_split index None 2 = Ok (delays, datas)
      ∧ last (stamps index) = Some 21600%Z
      ∧ length delays = 4
      ∧ last delays = Some d
      ∧ (d == 2)%Q
      ∧ ¬ (d == hours ((21600 + 3600) - 21600))%Q.
Proof.
  intros index. split; [simpl; repeat constructor; lia |].
  eexists _, _, _. split; [vm_compute; reflexivity |].
  split; [reflexivity |]. split; [reflexivity |]. split; [reflexivity |].
  split; [reflexivity | discriminate].
Qed.


(** * Further properties *)

(** ** TimeControl: construction, delegation, restart *)

Section TimeControlFurther.

Context {ModelIter : Type}.
Variable model_next : ModelIter → result TimeControlSet.t * ModelIter.

(** X1. The constructor returns a scheduler on every combination of
    arguments, with the arguments stored as given. Its timing is the
    iterator of the model when the call of [model.timing] returns one;
    otherwise the generator over [range(steps)] with the given [delay] when
    [range(steps)] can be made; otherwise the default generator of one step.
    The warning is printed exactly when a model was given and its [timing]
    could not be called. *)
Theorem TimeControl_construction_never_raises
    (delay steps : value) (model : TimeControl.model_arg ModelIter)
    (weather start_date : value) :
  ∃ out tc,
    TimeControl.__init__ delay steps model weather start_date = (out, Ok tc)
    ∧ TimeControl.delay tc = delay ∧ TimeControl.steps tc = steps
    ∧ TimeControl.model tc = model ∧ TimeControl.weather tc = weather
    ∧ TimeControl.start_date tc = start_date
    ∧ TimeControl._timing tc
      = match TimeControl.call_timing model delay steps weather start_date with
        | Ok it => TimeControl.FromModel it
        | Raise _ =>
            match range steps with
            | Ok r => TimeControl.FromDelay (Generator delay r)
            | Raise _ => TimeControl.FromDelay (Generator (Int 1) [0%Z])
            end
        end
    ∧ (out = [TimeControl.warning]
       ↔ model ≠ TimeControl.NoModel
         ∧ ∃ e, TimeControl.call_timing model delay steps weather start_date
                = Raise e)
    ∧ (out = [] ∨ out = [TimeControl.warning]).
Proof.
  unfold TimeControl.__init__, simple_delay_timing.
  destruct (TimeControl.call_timing model delay steps weather start_date)
    as [it | e] eqn:Hcall.
  - eexists _, _. split; [reflexivity |]. simpl. repeat split; auto.
    + discriminate.
    + intros [_ [e He]]. discriminate.
  - destruct (range steps) as [r | e']; simpl;
      (eexists _, _; split; [reflexivity |]); simpl; repeat split; auto;
      try (destruct model; [discriminate | intros H; discriminate]);
      try (intros [Hm _]; by destruct model);
      try (by eexists);
      try (destruct model; auto).
Qed.

(** X2. Without a usable model, and with [steps] that [range] does not
    accept (as the default [None]), the scheduler is the default one
    whatever [delay] is: it yields one bundle, with [dt = 1], and ends. *)
Theorem TimeControl_default_schedule
    (delay steps : value) (model : TimeControl.model_arg ModelIter)
    (weather start_date : value) (e e' : exn) :
  TimeControl.call_timing model delay steps weather start_date = Raise e →
  range steps = Raise e' →
  ∃ out tc tc',
    TimeControl.__init__ delay steps model weather start_date = (out, Ok tc)
    ∧ consume (TimeControl.next model_next) 2 tc
      = Some ([{["dt"%string := Int 1]}], StopIteration, tc').
Proof.
  intros Hcall Hrange. unfold TimeControl.__init__, simple_delay_timing.
  rewrite Hcall, Hrange. simpl. eexists _, _, _. split; [reflexivity |].
  vm_compute. reflexivity.
Qed.



Lemma TimeControl_advance_config (n : nat) (tc : TimeControl.t ModelIter) :
  let tc' := advance (TimeControl.next model_next) n tc in
  TimeControl.delay tc' = TimeControl.delay tc
  ∧ TimeControl.steps tc' = TimeControl.steps tc
  ∧ TimeControl.model tc' = TimeControl.model tc
  ∧ TimeControl.weather tc' = TimeControl.weather tc
  ∧ TimeControl.start_date tc' = TimeControl.start_date tc.
Proof.
  induction n as [| n IH]; [done |].
  unfold advance in *. simpl in *.
  set (s := Nat.iter n _ tc) in *.
  unfold TimeControl.next.
  destruct (TimeControl._timing s) as [it | g];
    [destruct (model_next it) | destruct (generator_next g)]; simpl; exact IH.
Qed.

Lemma TimeControl_init_config
    (delay steps : value) (model : TimeControl.model_arg ModelIter)
    (weather start_date : value) (out : list string)
    (tc : TimeControl.t ModelIter) :
  TimeControl.__init__ delay steps model weather start_date = (out, Ok tc) →
  TimeControl.delay tc = delay ∧ TimeControl.steps tc = steps
  ∧ TimeControl.model tc = model ∧ TimeControl.weather tc = weather
  ∧ TimeControl.start_date tc = start_date.
Proof.
  unfold TimeControl.__init__.
  destruct (TimeControl.call_timing model delay steps weather start_date).
  - intros [= <- <-]. done.
  - destruct (try_except _ _); simpl; [| done]. intros [= <- <-]. done.
Qed.

(** X4. Advancing a scheduler, whatever its model, never changes its stored
    configuration. For a scheduler constructed with [model=None], a restart
    after any number of advances prints nothing and returns the scheduler
    as it was first constructed, not one that resumes where the advances
    stopped. *)
Theorem TimeControl_restart_rebuilds
    (delay steps weather start_date : value) (out : list string)
    (tc : TimeControl.t ModelIter) (n : nat) :
  (∀ tc1 : TimeControl.t ModelIter,
     let tc' := advance (TimeControl.next model_next) n tc1 in
     TimeControl.delay tc' = TimeControl.delay tc1
     ∧ TimeControl.steps tc' = TimeControl.steps tc1
     ∧ TimeControl.model tc' = TimeControl.model tc1
     ∧ TimeControl.weather tc' = TimeControl.weather tc1
     ∧ TimeControl.start_date tc' = TimeControl.start_date tc1)
  ∧ (TimeControl.__init__ delay steps TimeControl.NoModel weather start_date
     = (out, Ok tc) →
     out = []
     ∧ TimeControl.__iter__ (advance (TimeControl.next model_next) n tc)
       = ([], Ok tc)).
Proof.
  split; [intros tc1; apply TimeControl_advance_config |].
  intros Hinit.
  assert (Hout : out = []).
  { unfold TimeControl.__init__ in Hinit. simpl in Hinit.
    by injection Hinit as <- _. }
  subst out. split; [done |].
  destruct (TimeControl_advance_config n tc) as (H1 & H2 & H3 & H4 & H5).
  unfold TimeControl.__iter__. rewrite H1, H2, H3, H4, H5.
  destruct (TimeControl_init_config _ _ _ _ _ _ _ Hinit)
    as (Hd & Hs & Hm & Hw & Hsd).
  by rewrite Hd, Hs, Hm, Hw, Hsd.
Qed.

End TimeControlFurther.

Lemma TimeControl_default_schedule_witness :
  let model_next : unit → result TimeControlSet.t * unit :=
    λ it, (Raise StopIteration, it) in
  TimeControl.call_timing (ModelIter := unit) TimeControl.NoModel
                          None_ None_ None_ None_
  = Raise AttributeError
  ∧ range None_ = Raise TypeError
  ∧ ∃ out tc tc',
      TimeControl.__init__ None_ None_ TimeControl.NoModel None_ None_
      = (out, Ok tc)
      ∧ consume (TimeControl.next model_next) 2 tc
        = Some ([{["dt"%string := Int 1]}], StopIteration, tc').
Proof.
  intros model_next. split; [reflexivity |]. split; [reflexivity |].
  exact (TimeControl_default_schedule model_next None_ None_ TimeControl.NoModel
           None_ None_ AttributeError TypeError eq_refl eq_refl).
Defined.


Lemma TimeControl_restart_rebuilds_witness :
  let model_next : unit → result TimeControlSet.t * unit :=
    λ it, (Raise StopIteration, it) in
  ∃ tc,
    TimeControl.__init__ (Int 2) (Int 4) TimeControl.NoModel None_ None_
    = ([], Ok tc)
    ∧ TimeControl.__iter__ (advance (TimeControl.next model_next) 3 tc)
      = ([], Ok tc).
Proof.
  intros model_next. eexists. split; [reflexivity |].
  exact (proj2 (proj2 (TimeControl_restart_rebuilds model_next (Int 2) (Int 4)
                         None_ None_ [] _ 3) eq_refl)).
Defined.

(** ** simple_delay_timing: elapsed time and edge cases *)

Lemma ceil_div_step (d n : Z) :
  (0 < d)%Z → (0 ≤ n)%Z →
  ((n + 1 + d - 1) / d = (n + d - 1) / d + (if decide (n mod d = 0) then 1 else 0))%Z.
Proof.
  intros Hd Hn.
  pose proof (Z.div_mod n d ltac:(lia)) as Hdm.
  pose proof (Z.mod_pos_bound n d Hd) as Hb.
  destruct (decide (n mod d = 0)%Z) as [H0 | H0].
  - rewrite <- (Z.div_unique (n + d - 1) d (n / d) (d - 1)) by lia.
    symmetry. apply (Z.div_unique _ d _ 0); lia.
  - rewrite <- (Z.div_unique (n + d - 1) d (n / d + 1) (n mod d - 1)) by lia.
    symmetry. apply (Z.div_unique _ d _ (n mod d)); lia.
Qed.

Lemma sum_dt_seqZ (d : Z) (n : nat) :
  (0 < d)%Z →
  foldr Z.add 0%Z
    ((λ i : Z, if decide ((i mod d)%Z = 0%Z) then d else 0%Z) <$> seqZ 0 (Z.of_nat n))
  = (d * ((Z.of_nat n + d - 1) / d))%Z.
Proof.
  intros Hd. induction n as [| n IH].
  - simpl. rewrite Z.div_small by lia. lia.
  - rewrite seqZ_S, fmap_app, foldr_app. simpl foldr at 2.
    rewrite Z.add_0_l, Z.add_0_r.
    assert (Hacc : ∀ (l : list Z) (a : Z),
              foldr Z.add a l = (foldr Z.add 0 l + a)%Z).
    { induction l as [| x l IHl]; intros a; simpl; [lia |]. rewrite IHl. lia. }
    rewrite Hacc, IH.
    replace (Z.of_nat (S n) + d - 1)%Z with (Z.of_nat n + 1 + d - 1)%Z by lia.
    rewrite ceil_div_step by lia.
    destruct (decide ((Z.of_nat n mod d)%Z = 0%Z)); lia.
Qed.

(** X5. For a positive integer [delay] and a non-negative integer [steps],
    the [dt] of the bundles that [simple_delay_timing(delay, steps)] yields
    add up to [delay] times the number of multiples of [delay] below
    [steps], that is [delay * ceil(steps / delay)]: at least [steps], less
    than [steps + delay], and exactly [steps] when [delay] divides [steps]. *)
Theorem simple_delay_timing_total_dt (delay steps : Z) :
  (0 < delay)%Z → (0 ≤ steps)%Z →
  ∃ g bundles g',
    simple_delay_timing (Int delay) (Int steps) = Ok g
    ∧ consume generator_next (S (Z.to_nat steps)) g
      = Some (bundles, StopIteration, g')
    ∧ foldr Z.add 0%Z (dt_of <$> bundles)
      = (delay * ((steps + delay - 1) / delay))%Z
    ∧ (steps ≤ foldr Z.add 0%Z (dt_of <$> bundles) < steps + delay)%Z
    ∧ ((delay | steps)%Z → foldr Z.add 0%Z (dt_of <$> bundles) = steps).
Proof.
  intros Hd Hs. eexists _, _, _. split; [reflexivity |]. split.
  { apply consume_generator; [lia |]. unfold range_int. rewrite length_seqZ. lia. }
  assert (Hsum : foldr Z.add 0%Z
            (dt_of <$> ((λ i : Z, ({["dt"%string :=
                 Int (if decide ((i mod delay)%Z = 0%Z) then delay else 0)]}
                 : gmap string value)) <$> range_int steps))
          = (delay * ((steps + delay - 1) / delay))%Z).
  { rewrite <- list_fmap_compose. unfold range_int.
    rewrite <- (Z2Nat.id steps) by lia.
    by rewrite <- (sum_dt_seqZ delay (Z.to_nat steps) Hd). }
  rewrite Hsum. split; [done |].
  pose proof (Z.div_mod (steps + delay - 1) delay ltac:(lia)) as Hdm.
  pose proof (Z.mod_pos_bound (steps + delay - 1) delay Hd) as Hb.
  split; [lia |].
  intros [k Hk]. subst steps.
  rewrite <- (Z.div_unique (k * delay + delay - 1) delay k (delay - 1)) by lia.
  lia.
Qed.

Lemma simple_delay_timing_total_dt_witness :
  (0 < 3)%Z ∧ (0 ≤ 10)%Z
  ∧ ∃ g bundles g',
      simple_delay_timing (Int 3) (Int 10) = Ok g
      ∧ consume generator_next 11 g = Some (bundles, StopIteration, g')
      ∧ foldr Z.add 0%Z (dt_of <$> bundles) = 12%Z.
Proof.
  split; [lia |]. split; [lia |].
  destruct (simple_delay_timing_total_dt 3 10 ltac:(lia) ltac:(lia))
    as (g & bundles & g' & H1 & H2 & H3 & _).
  exists g, bundles, g'. split; [exact H1 |]. split; [exact H2 | exact H3].
Defined.

(** X6. Edge cases of [simple_delay_timing]. With an integer [steps] that
    is zero or negative the generator yields nothing, whatever [delay] is,
    even an invalid one. With [delay = 0] and a positive [steps] the
    generator is created, its first [next] raises [ZeroDivisionError], and
    it is finished from then on: every later [next] is the end of sequence. *)
Theorem simple_delay_timing_edges (delay : value) (steps : Z) :
  ((steps ≤ 0)%Z →
     ∃ g, simple_delay_timing delay (Int steps) = Ok g
          ∧ consume generator_next 1 g = Some ([], StopIteration, g))
  ∧ ((0 < steps)%Z →
     ∃ g g', simple_delay_timing (Int 0) (Int steps) = Ok g
             ∧ consume generator_next 1 g = Some ([], ZeroDivisionError, g')
             ∧ ∀ n, generator_next (advance generator_next n g')
                    = (Raise StopIteration, g')).
Proof.
  split; intros Hs.
  - eexists. split; [reflexivity |]. simpl. unfold generator_next. simpl.
    unfold range_int. by rewrite seqZ_nil.
  - eexists _, _. split; [reflexivity |]. split.
    + simpl. unfold generator_next. simpl. unfold range_int.
      rewrite seqZ_cons by lia. simpl. reflexivity.
    + intros n. induction n as [| n IH]; [done |].
      unfold advance in *. simpl. by rewrite IH.
Qed.

Lemma simple_delay_timing_edges_witness :
  (0 < 3)%Z
  ∧ ∃ g g', simple_delay_timing (Int 0) (Int 3) = Ok g
            ∧ consume generator_next 1 g = Some ([], ZeroDivisionError, g').
Proof.
  split; [lia |].
  destruct (proj2 (simple_delay_timing_edges (Int 0) 3) ltac:(lia))
    as (g & g' & H1 & H2 & _).
  exists g, g'. split; [exact H1 | exact H2].
Defined.

(** ** TimeControler: the steps in closed form, restarts *)

Section TimeControlerFurther.

Context {A : Type}.

Implicit Types (td rest : list (string * TimeControler.stream A)).
Implicit Types (v : TimeControler.stream A).

(** What [dict] receives in one advance, and what the advance leaves. *)
Lemma pull_prefix td :
  Forall (λ kv, TimeControler.live kv.2) td →
  ∃ td',
    TimeControler.pull td
    = (Ok (prefix_pairs 0 ((λ kv, (kv.1, TimeControler.remaining kv.2)) <$> td)),
       td')
    ∧ ∀ i, prefix_pairs i ((λ kv, (kv.1, TimeControler.remaining kv.2)) <$> td')
           = prefix_pairs (S i)
               ((λ kv, (kv.1, TimeControler.remaining kv.2)) <$> td).
Proof.
  induction td as [| [k v] td IH]; intros H.
  - by exists [].
  - apply Forall_cons in H as [Hv Htd]. destruct (IH Htd) as (td' & Hp & Hi).
    destruct v as [l | [| x r] | all [| x r]]; simpl in *; try done;
      try rewrite Hp; eexists; (split; [reflexivity |]); intros i;
      rewrite ?fmap_cons; simpl; try done;
      destruct (r !! i); [by rewrite Hi | done | by rewrite Hi | done].
Qed.

Lemma consume_prefix_steps (i : nat) :
  ∀ fuel k v rest num ds e c',
    TimeControler.live v →
    Forall (λ kv, TimeControler.live kv.2) rest →
    i < length (TimeControler.remaining v) →
    consume TimeControler.next fuel (TimeControler.Build ((k, v) :: rest) num)
    = Some (ds, e, c') →
    ds !! i
    = Some (dict (prefix_pairs i
                    ((λ kv, (kv.1, TimeControler.remaining kv.2))
                       <$> (k, v) :: rest))).
Proof.
  induction i as [| i IH]; intros fuel k v rest num ds e c' Hv Hrest Hlt Hc.
  all: destruct (TimeControler.remaining v) as [| x r] eqn:Hr;
    [simpl in Hlt; lia |].
  all: destruct (pull_first_live k v rest x r Hv Hr Hrest)
    as (pairs & v' & rest' & Hp & Hv' & Hr' & Hrest').
  all: destruct (pull_prefix ((k, v) :: rest)) as (td' & Hp' & Hi);
    [by constructor |].
  all: rewrite Hp in Hp'; injection Hp' as Hpairs <-.
  all: destruct (consume_ok_inv _ _ _ _ _ _ _ _
                   (next_pairs ((k, v) :: rest) num ((k, x) :: pairs) _ Hp
                      ltac:(done)) Hc)
    as (fuel' & xs & -> & Hc').
  - simpl. by rewrite Hpairs.
  - simpl. rewrite (IH fuel' k v' rest' (num + 1)%Z xs e c' Hv' Hrest') ; try done.
    + by rewrite Hi.
    + rewrite Hr'. simpl in Hlt. lia.
Qed.

(** X7. A loop over a restarted controler takes exactly as many steps as
    the stream that comes first in the iteration order has items, whatever
    the other streams hold, and then ends with the end of sequence;
    [numiter] counts these steps. The step [i] is the mapping made of the
    item [i] of each stream, along the iteration order, up to the first
    stream that has no item [i]: a stream after a shorter one is left out
    once the shorter one is exhausted. Over no stream at all the loop ends
    at once. *)
Theorem TimeControler_steps_closed_form
    (k0 : string) (v0 : TimeControler.stream A)
    (rest : list (string * TimeControler.stream A)) :
  let kwd := (k0, v0) :: rest in
  (∃ ds c',
     consume TimeControler.next (S (length (TimeControler.items v0)))
             (TimeControler.__iter__ (TimeControler.__init__ kwd))
     = Some (ds, StopIteration, c')
     ∧ length ds = length (TimeControler.items v0)
     ∧ TimeControler.numiter c' = Z.of_nat (length ds)
     ∧ ∀ i, i < length (TimeControler.items v0) →
         ds !! i
         = Some (dict (prefix_pairs i
                         ((λ kv, (kv.1, TimeControler.items kv.2)) <$> kwd))))
  ∧ consume TimeControler.next 1
            (TimeControler.__iter__ (TimeControler.__init__ ([] : list (string * TimeControler.stream A))))
    = Some ([], StopIteration, TimeControler.Build [] 0).
Proof.
  intros kwd. split; [| reflexivity].
  assert (Hlive : Forall (λ kv : string * TimeControler.stream A,
                            TimeControler.live kv.2)
                         ((λ kv, (kv.1, TimeControler.py_iter kv.2)) <$> rest)).
  { apply Forall_fmap, Forall_forall. intros kv _. apply py_iter_live. }
  destruct (consume_until_first_exhausted
              (length (TimeControler.items v0)) k0 (TimeControler.py_iter v0)
              ((λ kv, (kv.1, TimeControler.py_iter kv.2)) <$> rest) 0%Z)
    as (ds & c' & Hc & Hlen & Hnum).
  { apply py_iter_live. }
  { done. }
  { by rewrite (proj2 (py_iter_live v0)). }
  exists ds, c'. split; [exact Hc |]. split; [done |]. split; [lia |].
  intros i Hi.
  rewrite (consume_prefix_steps i _ _ _ _ _ _ _ _ (proj1 (py_iter_live v0)) Hlive
             ltac:(by rewrite (proj2 (py_iter_live v0))) Hc).
  do 3 f_equal.
  change ((k0, TimeControler.py_iter v0)
          :: ((λ kv, (kv.1, TimeControler.py_iter kv.2)) <$> rest))
    with ((λ kv : string * TimeControler.stream A,
             (kv.1, TimeControler.py_iter kv.2)) <$> kwd).
  rewrite <- list_fmap_compose. apply list_fmap_ext.
  intros j [k v] _. simpl. by rewrite (proj2 (py_iter_live v)).
Qed.

Lemma pull_iterators (kl : list (string * list A)) :
  Forall (λ p, p.2 ≠ []) kl →
  ∃ pairs,
    TimeControler.pull ((λ p, (p.1, TimeControler.SeqIter p.2)) <$> kl)
    = (Ok pairs,
       (λ p, (p.1, TimeControler.SeqIter p.2))
         <$> ((λ p, (p.1, tail p.2)) <$> kl))
    ∧ length pairs = length kl.
Proof.
  induction kl as [| [k l] kl IH]; intros H.
  - by exists [].
  - apply Forall_cons in H as [Hl H]. destruct (IH H) as (pairs & Hp & Hlen).
    destruct l as [| x r]; [done |]. rewrite !fmap_cons.
    cbn [fst snd tail TimeControler.pull TimeControler.py_next].
    rewrite Hp. eexists. split; [reflexivity |]. simpl. by rewrite Hlen.
Qed.

(** A loop over iterators that all have [n] items left exhausts them all. *)
Lemma consume_equal_lengths (n : nat) :
  ∀ (kl : list (string * list A)) num,
    kl ≠ [] → Forall (λ p, length p.2 = n) kl →
    ∃ ds num',
      consume TimeControler.next (S n)
        (TimeControler.Build
           ((λ p, (p.1, TimeControler.SeqIter p.2)) <$> kl) num)
      = Some (ds, StopIteration,
              TimeControler.Build
                ((λ p, (p.1, TimeControler.SeqIter p.2))
                   <$> ((λ p, (p.1, [])) <$> kl)) num')
      ∧ length ds = n.
Proof.
  induction n as [| n IH]; intros kl num Hne Hall.
  - exists [], num. split; [| done].
    assert (Hkl : (λ p : string * list A, (p.1, ([] : list A))) <$> kl = kl).
    { clear Hne. induction Hall as [| [k l] kl Hl _ IHl]; [done |].
      rewrite fmap_cons, IHl. simpl in *.
      by apply length_zero_iff_nil in Hl as ->. }
    rewrite Hkl. destruct kl as [| [k l] kl]; [done |].
    apply Forall_cons in Hall as [Hl _]. simpl in Hl.
    apply length_zero_iff_nil in Hl as ->.
    apply consume_raise. unfold TimeControler.next.
    simpl TimeControler._timedict. rewrite fmap_cons.
    by rewrite pull_first_exhausted.
  - destruct (pull_iterators kl) as (pairs & Hp & Hlen).
    { eapply Forall_impl; [exact Hall |]. intros [k l] Hl. simpl in *.
      by destruct l. }
    destruct (IH ((λ p, (p.1, tail p.2)) <$> kl) (num + 1)%Z)
      as (ds & num' & Hc & Hl).
    { by destruct kl. }
    { apply Forall_fmap. eapply Forall_impl; [exact Hall |].
      intros [k l] Hkl. simpl in *. destruct l; simpl in *; lia. }
    assert (Hnil : (λ p : string * list A, (p.1, ([] : list A)))
                     <$> ((λ p, (p.1, tail p.2)) <$> kl)
                   = (λ p, (p.1, [])) <$> kl)
      by (by rewrite <- list_fmap_compose).
    rewrite Hnil in Hc.
    exists (dict pairs :: ds), num'. split; [| simpl; by rewrite Hl].
    eapply consume_ok; [| exact Hc]. apply next_pairs; [exact Hp |].
    intros ->. by destruct kl.
Qed.

(** X8. A controler over plain lists, all of the same length, can be looped
    over once. The restart turns each list into an iterator and the loop
    exhausts them; a second restart keeps the exhausted iterators and does
    not rewind them, so that a second loop ends at once without a step, in
    whatever order the restarted mapping is iterated. *)
Theorem TimeControler_sequence_one_shot
    (kl : list (string * list A)) (n : nat) :
  kl ≠ [] → Forall (λ p, length p.2 = n) kl →
  let kwd := (λ p, (p.1, TimeControler.Seq p.2)) <$> kl in
  ∃ ds c',
    consume TimeControler.next (S n)
            (TimeControler.__iter__ (TimeControler.__init__ kwd))
    = Some (ds, StopIteration, c')
    ∧ length ds = n
    ∧ Forall (λ kv, kv.2 = TimeControler.SeqIter [])
             (TimeControler._timedict (TimeControler.__iter__ c'))
    ∧ ∀ td',
        td' ≡ₚ TimeControler._timedict (TimeControler.__iter__ c') →
        consume TimeControler.next 1 (TimeControler.Build td' 0)
        = Some ([], StopIteration, TimeControler.Build td' 0).
Proof.
  intros Hne Hall kwd.
  destruct (consume_equal_lengths n kl 0%Z Hne Hall) as (ds & num' & Hc & Hl).
  assert (Hiter : TimeControler.__iter__ (TimeControler.__init__ kwd)
                  = TimeControler.Build
                      ((λ p, (p.1, TimeControler.SeqIter p.2)) <$> kl) 0).
  { unfold TimeControler.__iter__, TimeControler.__init__, kwd. simpl.
    by rewrite <- list_fmap_compose. }
  rewrite Hiter. eexists _, _. split; [exact Hc |]. split; [exact Hl |].
  assert (Hall' : Forall (λ kv : string * TimeControler.stream A,
                            kv.2 = TimeControler.SeqIter [])
                    (TimeControler._timedict
                       (TimeControler.__iter__
                          (TimeControler.Build
                             ((λ p, (p.1, TimeControler.SeqIter p.2))
                                <$> ((λ p, (p.1, [])) <$> kl)) num')))).
  { simpl. rewrite <- !list_fmap_compose. apply Forall_fmap, Forall_forall.
    by intros [k l] _. }
  split; [exact Hall' |].
  intros td' Hperm. rewrite <- Hperm in Hall'.
  destruct td' as [| [k v] td'].
  - apply Permutation_nil_l in Hperm. simpl in Hperm.
    rewrite <- !list_fmap_compose in Hperm. by destruct kl.
  - apply Forall_cons in Hall' as [Hv _]. simpl in Hv. subst v.
    by apply consume_raise.
Qed.

Lemma pull_restartable td :
  Forall (λ kv, ∃ all rem, kv.2 = TimeControler.Restartable all rem) td →
  Forall (λ kv, ∃ all rem, kv.2 = TimeControler.Restartable all rem)
         (TimeControler.pull td).2
  ∧ (λ kv, (kv.1, TimeControler.py_iter kv.2)) <$> (TimeControler.pull td).2
    = (λ kv, (kv.1, TimeControler.py_iter kv.2)) <$> td.
Proof.
  induction td as [| [k v] td IH]; intros H; [done |].
  apply Forall_cons in H as [(all & rem & Hv) Htd]. simpl in Hv. subst v.
  destruct (IH Htd) as [IH1 IH2].
  destruct rem as [| x r]; cbn [TimeControler.pull TimeControler.py_next].
  - split; [constructor; [by eexists _, _ | done] | done].
  - destruct (TimeControler.pull td) as [pairs td'] eqn:Hp. cbn [fst snd] in *.
    split; [constructor; [by eexists _, _ | done] |].
    rewrite !fmap_cons. simpl. by rewrite IH2.
Qed.

Lemma restart_of_restartable
    (kwd : list (string * TimeControler.stream A)) (n : nat) :
  Forall (λ kv, ∃ all rem, kv.2 = TimeControler.Restartable all rem) kwd →
  TimeControler.__iter__
    (advance TimeControler.next n
             (TimeControler.__iter__ (TimeControler.__init__ kwd)))
  = TimeControler.__iter__ (TimeControler.__init__ kwd).
Proof.
  intros Hkwd.
  set (c0 := TimeControler.__iter__ (TimeControler.__init__ kwd)).
  assert (Hinv : ∀ m,
    Forall (λ kv, ∃ all rem, kv.2 = TimeControler.Restartable all rem)
           (TimeControler._timedict (advance TimeControler.next m c0))
    ∧ TimeControler.__iter__ (advance TimeControler.next m c0) = c0).
  { induction m as [| m [IH1 IH2]].
    - split.
      + simpl. apply Forall_fmap. eapply Forall_impl; [exact Hkwd |].
        intros [k v] (all & rem & Hv). simpl in *. subst v. by eexists _, _.
      + unfold c0, TimeControler.__iter__, TimeControler.__init__. simpl.
        f_equal. rewrite <- list_fmap_compose. apply list_fmap_ext.
        intros i [k v] _. simpl. by destruct v.
    - unfold advance in *. simpl.
      set (c := Nat.iter m _ c0) in *.
      destruct (pull_restartable (TimeControler._timedict c) IH1) as [H1 H2].
      unfold TimeControler.next.
      destruct (TimeControler.pull (TimeControler._timedict c)) as [[pairs | e] td'];
        simpl in *; [destruct (decide _) |]; simpl; (split; [done |]);
        unfold TimeControler.__iter__ in *; simpl in *;
        rewrite H2; exact IH2. }
  apply Hinv.
Qed.

(** X9. A controler whose streams are all restartable objects (in the style
    of [Timing] and [TimeControl]) rewinds them at a restart: after any
    number of advances, the restarted controler has [numiter] at 0 and holds,
    under each name, the stream given under that name, back at its start. *)
Theorem TimeControler_restartable_streams
    (kwd : list (string * TimeControler.stream A)) (n : nat) :
  Forall (λ kv, ∃ all rem, kv.2 = TimeControler.Restartable all rem) kwd →
  let c := TimeControler.__iter__
             (advance TimeControler.next n
                (TimeControler.__iter__ (TimeControler.__init__ kwd))) in
  TimeControler.numiter c = 0%Z
  ∧ ∀ k v,
      (k, v) ∈ TimeControler._timedict c
      ↔ ∃ all rem, (k, TimeControler.Restartable all rem) ∈ kwd
                   ∧ v = TimeControler.Restartable all all.
Proof.
  intros Hkwd c. unfold c. rewrite (restart_of_restartable kwd n Hkwd).
  split; [done |]. intros k v. simpl. rewrite list_elem_of_fmap. split.
  - intros ([k' v'] & [= -> ->] & Hin).
    destruct (proj1 (Forall_forall _ _) Hkwd _ Hin) as (all & rem & Hv).
    simpl in Hv. subst v'. by exists all, rem.
  - intros (all & rem & Hin & ->). by exists (k, TimeControler.Restartable all rem).
Qed.

End TimeControlerFurther.

Lemma TimeControler_sequence_one_shot_witness :
  let kl := [("rain"%string, [1; 2]%Z); ("wind"%string, [3; 4]%Z)] in
  kl ≠ [] ∧ Forall (λ p, length p.2 = 2) kl
  ∧ ∃ ds c',
      consume TimeControler.next 3
        (TimeControler.__iter__
           (TimeControler.__init__
              ((λ p, (p.1, TimeControler.Seq p.2)) <$> kl)))
      = Some (ds, StopIteration, c')
      ∧ length ds = 2
      ∧ consume TimeControler.next 1
          (TimeControler.Build
             (reverse (TimeControler._timedict (TimeControler.__iter__ c'))) 0)
        = Some ([], StopIteration,
                TimeControler.Build
                  (reverse (TimeControler._timedict (TimeControler.__iter__ c')))
                  0).
Proof.
  intros kl.
  assert (H1 : kl ≠ []) by discriminate.
  assert (H2 : Forall (λ p : string * list Z, length p.2 = 2) kl)
    by (repeat constructor).
  split; [exact H1 |]. split; [exact H2 |].
  destruct (TimeControler_sequence_one_shot kl 2 H1 H2)
    as (ds & c' & Hc & Hl & _ & Hany).
  exists ds, c'. split; [exact Hc |]. split; [exact Hl |].
  apply Hany. apply reverse_Permutation.
Defined.

Lemma TimeControler_restartable_streams_witness :
  let kwd := [("a"%string, TimeControler.Restartable [1; 2; 3]%Z [3]%Z);
              ("b"%string, TimeControler.Restartable [4; 5]%Z [])] in
  Forall (λ kv, ∃ all rem, kv.2 = TimeControler.Restartable all rem) kwd
  ∧ TimeControler.numiter
      (TimeControler.__iter__
         (advance TimeControler.next 2
            (TimeControler.__iter__ (TimeControler.__init__ kwd))))
    = 0%Z.
Proof.
  intros kwd.
  assert (H : Forall (λ kv : string * TimeControler.stream Z,
                        ∃ all rem, kv.2 = TimeControler.Restartable all rem) kwd)
    by (repeat constructor; by eexists _, _).
  split; [exact H |]. exact (proj1 (TimeControler_restartable_streams kwd 2 H)).
Defined.

(** ** delay_to_timing and Timing: failure, unpaired input, counts *)

(** X10. [delay_to_timing] raises exactly when there is no block to
    concatenate: [delays] is empty, or [datas] is given and empty. In every
    other case it returns a sequence, whatever the numbers in [delays] are. *)
Theorem delay_to_timing_raises_iff (delays : list Q) (datas : option (list value)) :
  (delay_to_timing delays datas = Raise TypeError
   ↔ delays = [] ∨ datas = Some [])
  ∧ (delays ≠ [] → datas ≠ Some [] →
     ∃ timing, delay_to_timing delays datas = Ok timing).
Proof.
  unfold delay_to_timing.
  destruct delays as [| d delays], datas as [[| dat ds] |]; simpl;
    (split; [split; [try done; intros _; auto | try done; intros [? | ?]; done]
            | try done; intros _ _; by eexists]).
Qed.

Lemma delay_to_timing_raises_iff_witness :
  ([1 # 2; 3 # 1]%Q : list Q) ≠ [] ∧ Some [Int 1] ≠ Some ([] : list value)
  ∧ ∃ timing, delay_to_timing [1 # 2; 3 # 1]%Q (Some [Int 1]) = Ok timing.
Proof.
  assert (H1 : ([1 # 2; 3 # 1]%Q : list Q) ≠ []) by discriminate.
  assert (H2 : Some [Int 1] ≠ Some ([] : list value)) by discriminate.
  split; [exact H1 |]. split; [exact H2 |].
  exact (proj2 (delay_to_timing_raises_iff _ _) H1 H2).
Defined.


Lemma block_events (d : Q) :
  filter (λ v, v = Bool true)
         ((λ i : Z, if decide (i = 0%Z) then Bool true else Bool false)
            <$> range_int (int d))
  = if decide (1 ≤ int d)%Z then [Bool true] else [].
Proof.
  unfold range_int. destruct (decide (1 ≤ int d)%Z) as [H | H].
  - rewrite seqZ_cons by lia. rewrite fmap_cons. simpl.
    rewrite filter_cons_True by done. f_equal.
    assert (Hrest : ∀ l : list Z, Forall (λ i, i ≠ 0%Z) l →
              filter (λ v, v = Bool true)
                ((λ i : Z, if decide (i = 0%Z) then Bool true else Bool false)
                   <$> l) = []).
    { induction l as [| i l IH]; intros Hl; [done |].
      apply Forall_cons in Hl as [Hi Hl]. rewrite fmap_cons.
      rewrite decide_False by done.
      rewrite filter_cons_False by discriminate. by apply IH. }
    apply Hrest, Forall_forall. intros i Hi%elem_of_seqZ. lia.
  - by rewrite seqZ_nil by lia.
Qed.

(** X12. Without [datas], the sequence of a non-empty [delays] holds
    booleans only, and as many [True] as there are durations that truncate
    to 1 or more: a duration below 1 (or negative) leaves no event. *)
Theorem delay_to_timing_event_count (delays : list Q) :
  delays ≠ [] →
  ∃ timing,
    delay_to_timing delays None = Ok timing
    ∧ Forall (λ v, v = Bool true ∨ v = Bool false) timing
    ∧ length (filter (λ v, v = Bool true) timing)
      = length (filter (λ d, (1 ≤ int d)%Z) delays).
Proof.
  intros Hne. unfold delay_to_timing.
  rewrite reduce_concat by (by destruct delays).
  eexists. split; [reflexivity |]. clear Hne. split.
  - induction delays as [| d delays IH]; [constructor |].
    rewrite fmap_cons. simpl. apply Forall_app. split; [| exact IH].
    apply Forall_fmap, Forall_forall. intros i _. simpl.
    destruct (decide (i = 0%Z)); auto.
  - induction delays as [| d delays IH]; [done |].
    rewrite fmap_cons. simpl concat. rewrite filter_app, length_app, IH.
    rewrite block_events, filter_cons.
    destruct (decide (1 ≤ int d)%Z); done.
Qed.

Lemma delay_to_timing_event_count_witness :
  ([2 # 1; 1 # 2; 3 # 1]%Q : list Q) ≠ []
  ∧ ∃ timing,
      delay_to_timing [2 # 1; 1 # 2; 3 # 1]%Q None = Ok timing
      ∧ length (filter (λ v, v = Bool true) timing) = 2.
Proof.
  assert (H1 : ([2 # 1; 1 # 2; 3 # 1]%Q : list Q) ≠ []) by discriminate.
  split; [exact H1 |].
  destruct (delay_to_timing_event_count _ H1) as (timing & Ht & _ & Hc).
  exists timing. split; [exact Ht | exact Hc].
Defined.

Lemma delay_to_timing_length (delays : list Q) (datas : option (list value))
    (timing : list value) :
  (∀ ds, datas = Some ds → length ds = length delays) →
  delay_to_timing delays datas = Ok timing →
  length timing = sum_list_with (λ d, Z.to_nat (int d)) delays.
Proof.
  intros Hlen. unfold delay_to_timing.
  set (mk := λ (dat : value) (d : Q),
         (λ i : Z, if decide (i = 0%Z) then dat else Bool false)
           <$> range_int (int d)).
  assert (Hmk : ∀ dat d, length (mk dat d) = Z.to_nat (int d)).
  { intros dat d. unfold mk, range_int. by rewrite length_fmap, length_seqZ. }
  destruct datas as [ds |].
  - specialize (Hlen ds eq_refl).
    destruct (zip delays ds) as [| p ps] eqn:Hz; [done |]. rewrite <- Hz.
    rewrite reduce_concat by (by rewrite Hz). intros [= <-]. clear Hz p ps.
    revert ds Hlen. induction delays as [| d delays IH]; intros [| dat ds] Hlen;
      simpl in *; try done.
    rewrite length_app. fold (mk dat d). rewrite Hmk. f_equal. apply IH. lia.
  - destruct delays as [| d0 delays0] eqn:Hd; [done |]. rewrite <- Hd.
    rewrite reduce_concat by (by rewrite Hd). intros [= <-]. clear Hd.
    induction delays as [| d delays IH]; [done |]. simpl.
    rewrite length_app. fold (mk (Bool true) d). rewrite Hmk. by f_equal.
Qed.

(** X13. A [Timing] made from [delays], with [datas] absent or of the same
    length, yields exactly as many elements as the truncated durations add
    up to (a negative duration counting for none) and then signals the end
    of sequence; once at its end it stays there, every further advance
    signalling the end again. *)
Theorem Timing_length (delays : list Q) (datas : option (list value))
    (t : Timing.t) :
  (∀ ds, datas = Some ds → length ds = length delays) →
  Timing.__init__ delays datas = Ok t →
  ∃ elems t_end,
    consume Timing.next (S (length elems)) t = Some (elems, StopIteration, t_end)
    ∧ length elems = sum_list_with (λ d, Z.to_nat (int d)) delays
    ∧ ∀ n, Timing.next (advance Timing.next n t_end)
           = (Raise StopIteration, t_end).
Proof.
  intros Hlen Hinit. unfold Timing.__init__ in Hinit.
  destruct (delay_to_timing delays datas) as [timing |] eqn:Ht; [| done].
  simpl in Hinit. injection Hinit as <-.
  eexists _, _. split; [apply Timing_consume; lia |]. split.
  - rewrite length_fmap. by eapply delay_to_timing_length.
  - intros n. induction n as [| n IH]; [done |].
    unfold advance in *. simpl. by rewrite IH.
Qed.

Lemma Timing_length_witness :
  (∀ ds, (None : option (list value)) = Some ds →
     length ds = length ([2 # 1; 7 # 2]%Q : list Q))
  ∧ ∃ t elems t_end,
      Timing.__init__ [2 # 1; 7 # 2]%Q None = Ok t
      ∧ consume Timing.next (S (length elems)) t
        = Some (elems, StopIteration, t_end)
      ∧ length elems = 5.
Proof.
  assert (H1 : ∀ ds, (None : option (list value)) = Some ds →
                 length ds = length ([2 # 1; 7 # 2]%Q : list Q)) by discriminate.
  split; [exact H1 |]. eexists.
  destruct (Timing_length [2 # 1; 7 # 2]%Q None _ H1 eq_refl)
    as (elems & t_end & Hc & Hl & _).
  exists elems, t_end. split; [reflexivity |]. split; [exact Hc | exact Hl].
Defined.

(** ** time_split: outcomes, covered span, composition with Timing *)

(** What [time_split] returns on a non-empty sequence that carries a
    frequency, for a delay other than 0. *)
Lemma time_split_events (time_sequence : DatetimeIndex)
    (weather_data : option (Z → Z → value)) (t0 : Z) (later : list Z)
    (period delay : Z) :
  stamps time_sequence = t0 :: later →
  freq time_sequence = Some period → delay ≠ 0%Z →
  ∃ tn starts,
    last (stamps time_sequence) = Some tn
    ∧ (t0 :: starts) `sublist_of` stamps time_sequence
    ∧ time_split time_sequence weather_data delay
      = Ok (hours <$> zip_with (λ s e, (e - s)%Z) (t0 :: starts)
                               (starts ++ [(tn + period)%Z]),
            zip_with (λ s e, match weather_data with
                             | Some truncate => truncate s e
                             | None => None_
                             end)
                     (t0 :: starts) (starts ++ [(tn + period)%Z])).
Proof.
  intros Hst Hfreq Hdelay.
  set (offset := λ t : Z, hours (t - t0)).
  set (test := λ x : Q,
         Qeq_bool (x - inject_Z (Qfloor (x / inject_Z delay)) * inject_Z delay) 0).
  destruct (proj2 (last_is_Some (stamps time_sequence))) as [tn Hlast];
    [by rewrite Hst |].
  assert (Ht0 : test (offset t0) = true).
  { unfold test, offset. apply fmod_zero_iff; [done |]. exists 0%Z.
    rewrite Z.sub_diag, Z.mul_0_l. reflexivity. }
  exists tn, (List.filter (test ∘ offset) later). split; [done |].
  assert (Hstarts : List.filter (test ∘ offset) (stamps time_sequence)
                    = t0 :: List.filter (test ∘ offset) later).
  { rewrite Hst. simpl. unfold compose at 1. by rewrite Ht0. }
  split; [rewrite <- Hstarts; apply filter_sublist |].
  unfold time_split.
  rewrite (comprehension_ok _ offset)
    by (intros t _; by rewrite Hst, getitem_first).
  cbn [mbind result_bind].
  rewrite (comprehension_ok _ test)
    by (intros x _; unfold fmod; by rewrite decide_False).
  cbn [mbind result_bind].
  rewrite <- list_fmap_compose, mask_fmap, Hstarts.
  rewrite (getitem_last _ _ Hlast). cbn [mbind result_bind].
  unfold Timestamp_add. rewrite Hfreq, Z.mul_1_l. cbn [mbind result_bind tail].
  set (starts := List.filter (test ∘ offset) later).
  set (ends := starts ++ [(tn + period)%Z]).
  assert (Hne : ∀ f : Z * Z → Q * value, f <$> zip (t0 :: starts) ends ≠ []).
  { intros f. unfold ends. destruct starts; simpl; done. }
  destruct weather_data as [truncate |]; rewrite unzip_ok by apply Hne;
    do 2 f_equal; rewrite <- ?list_fmap_compose;
    generalize (t0 :: starts) ends; clear;
    (induction l as [| s l IH]; intros [| e l']; simpl; f_equal; auto).
Qed.

(** X14. The outcomes of [time_split]: on an empty sequence it raises
    [IndexError]; on a non-empty one with [delay = 0], [ZeroDivisionError];
    on a non-empty one with a delay other than 0 but no frequency,
    [ValueError]; in every other case it returns its two lists, which are
    not empty and of the same length. *)
Theorem time_split_outcomes (time_sequence : DatetimeIndex)
    (weather_data : option (Z → Z → value)) (delay : Z) :
  (stamps time_sequence = [] →
     time_split time_sequence weather_data delay = Raise IndexError)
  ∧ (stamps time_sequence ≠ [] → delay = 0%Z →
     time_split time_sequence weather_data delay = Raise ZeroDivisionError)
  ∧ (stamps time_sequence ≠ [] → delay ≠ 0%Z → freq time_sequence = None →
     time_split time_sequence weather_data delay = Raise ValueError)
  ∧ (stamps time_sequence ≠ [] → delay ≠ 0%Z → freq time_sequence ≠ None →
     ∃ delays datas,
       time_split time_sequence weather_data delay = Ok (delays, datas)
       ∧ delays ≠ [] ∧ length datas = length delays).
Proof.
  split; [| split; [| split]].
  - intros Hst. unfold time_split. rewrite Hst. reflexivity.
  - intros Hne ->. unfold time_split.
    destruct (stamps time_sequence) as [| t0 later]; [done |].
    rewrite (comprehension_ok _ (λ t, hours (t - t0)))
      by (intros t _; by rewrite getitem_first).
    reflexivity.
  - intros Hne Hdelay Hfreq. unfold time_split.
    destruct (stamps time_sequence) as [| t0 later] eqn:Hst; [done |].
    rewrite (comprehension_ok _ (λ t, hours (t - t0)))
      by (intros t _; by rewrite getitem_first).
    cbn [mbind result_bind].
    rewrite (comprehension_ok _ (λ x,
               Qeq_bool (x - inject_Z (Qfloor (x / inject_Z delay)) * inject_Z delay) 0))
      by (intros x _; unfold fmod; by rewrite decide_False).
    cbn [mbind result_bind].
    destruct (proj2 (last_is_Some (t0 :: later))) as [tn Hlast]; [done |].
    rewrite (getitem_last _ _ Hlast). cbn [mbind result_bind].
    unfold Timestamp_add. by rewrite Hfreq.
  - intros Hne Hdelay Hfreq.
    destruct (stamps time_sequence) as [| t0 later] eqn:Hst; [done |].
    destruct (freq time_sequence) as [period |] eqn:Hf; [| done].
    destruct (time_split_events time_sequence weather_data t0 later period delay
                Hst Hf Hdelay) as (tn & starts & _ & _ & Hsplit).
    eexists _, _. split; [exact Hsplit |]. split.
    + destruct starts; done.
    + rewrite length_fmap, !length_zip_with. done.
Qed.

Lemma time_split_outcomes_witness :
  let index := Build_index [0; 3600; 7200]%Z None in
  stamps index ≠ [] ∧ 2%Z ≠ 0%Z ∧ freq index = None
  ∧ time_split index None 2 = Raise ValueError.
Proof.
  intros index.
  assert (H1 : stamps index ≠ []) by discriminate.
  assert (H2 : 2%Z ≠ 0%Z) by lia.
  assert (H3 : freq index = None) by reflexivity.
  split; [exact H1 |]. split; [exact H2 |]. split; [exact H3 |].
  exact (proj1 (proj2 (proj2 (time_split_outcomes index None 2))) H1 H2 H3).
Defined.

Lemma telescope (s0 : Z) (rest : list Z) (e : Z) :
  foldr Z.add 0%Z (zip_with (λ s e, (e - s)%Z) (s0 :: rest) (rest ++ [e]))
  = (e - s0)%Z.
Proof.
  revert s0. induction rest as [| s1 rest IH]; intros s0; simpl.
  - lia.
  - simpl in IH. rewrite IH. lia.
Qed.

Lemma Qsum_hours (l : list Z) :
  (Qsum (hours <$> l) == hours (foldr Z.add 0%Z l))%Q.
Proof.
  induction l as [| x l IH]; simpl.
  - reflexivity.
  - rewrite IH. unfold hours. rewrite inject_Z_plus. field.
Qed.

Lemma hours_whole (k : Z) : (hours (k * 3600) == inject_Z k)%Q.
Proof. unfold hours. rewrite inject_Z_mult. field. Qed.

(** Between timestamps that are whole hours apart, every duration is a
    whole number of hours. *)
Lemma whole_hour_durations (all : list Z) (t0 tn period : Z) (starts : list Z) :
  (t0 :: starts) `sublist_of` all → last all = Some tn →
  Forall (λ t, (3600 | t - t0)%Z) all → (3600 | period)%Z →
  Forall (λ d, ∃ k : Z, (d == inject_Z k)%Q)
         (hours <$> zip_with (λ s e, (e - s)%Z) (t0 :: starts)
                             (starts ++ [(tn + period)%Z])).
Proof.
  intros Hsub Hlast Hwhole [kp Hkp].
  apply Forall_fmap, Forall_lookup. intros i x Hx.
  rewrite lookup_zip_with in Hx.
  destruct ((t0 :: starts) !! i) as [s |] eqn:Hs; [| done].
  destruct ((starts ++ [(tn + period)%Z]) !! i) as [e |] eqn:He; [| done].
  simpl in Hx. injection Hx as <-.
  destruct (ends_lookup (t0 :: starts) (tn + period)%Z i s Hs)
    as (e' & He' & Hnext).
  simpl tail in He'. rewrite He in He'. injection He' as <-.
  assert (Hin : ∀ t, t ∈ t0 :: starts → ∃ k, (t - t0 = k * 3600)%Z).
  { intros t Ht. apply (proj1 (Forall_forall _ _) Hwhole).
    by eapply elem_of_sublist. }
  destruct (Hin s (list_elem_of_lookup_2 _ _ _ Hs)) as [ks Hks].
  assert (He_k : ∃ ke, (e - t0 = ke * 3600)%Z).
  { destruct Hnext as [Hn | [_ ->]].
    - apply Hin. by eapply list_elem_of_lookup_2.
    - assert (Htn : tn ∈ all).
      { apply last_Some in Hlast as [l' ->]. apply elem_of_app. right.
        constructor. }
      destruct (proj1 (Forall_forall _ _) Hwhole tn Htn) as [kn Hkn].
      exists (kn + kp)%Z. lia. }
  destruct He_k as [ke Hke]. exists (ke - ks)%Z. simpl.
  replace (e - s)%Z with ((ke - ks) * 3600)%Z by lia. apply hours_whole.
Qed.

(** X15. On a non-empty sequence that carries a frequency, whose timestamps
    are whole hours apart and whose period is a whole number of hours, for
    a delay other than 0: every duration that [time_split] returns is a
    whole number of hours, and the durations add up to the whole span, from
    the first timestamp to one period past the last. No time of the
    sequence is left out or counted twice. *)
Theorem time_split_durations_sum (time_sequence : DatetimeIndex)
    (weather_data : option (Z → Z → value)) (t0 : Z) (later : list Z)
    (period delay : Z) :
  stamps time_sequence = t0 :: later →
  Forall (λ t, (3600 | t - t0)%Z) (stamps time_sequence) →
  freq time_sequence = Some period → (3600 | period)%Z → delay ≠ 0%Z →
  ∃ delays datas tn,
    time_split time_sequence weather_data delay = Ok (delays, datas)
    ∧ last (stamps time_sequence) = Some tn
    ∧ Forall (λ d, ∃ k : Z, (d == inject_Z k)%Q) delays
    ∧ (Qsum delays == hours (tn + period - t0))%Q.
Proof.
  intros Hst Hwhole Hfreq Hp Hdelay.
  destruct (time_split_events time_sequence weather_data t0 later period delay
              Hst Hfreq Hdelay) as (tn & starts & Hlast & Hsub & Hsplit).
  eexists _, _, tn. split; [exact Hsplit |]. split; [exact Hlast |].
  split; [by eapply whole_hour_durations |].
  by rewrite Qsum_hours, telescope.
Qed.

Lemma time_split_durations_sum_witness :
  let index := Build_index [0; 3600; 7200; 10800]%Z (Some 3600%Z) in
  stamps index = 0%Z :: [3600; 7200; 10800]%Z
  ∧ Forall (λ t, (3600 | t - 0)%Z) (stamps index)
  ∧ freq index = Some 3600%Z ∧ (3600 | 3600)%Z ∧ 3%Z ≠ 0%Z
  ∧ ∃ delays datas,
      time_split index None 3 = Ok (delays, datas)
      ∧ (Qsum delays == 4)%Q.
Proof.
  intros index.
  assert (H1 : stamps index = 0%Z :: [3600; 7200; 10800]%Z) by reflexivity.
  assert (H2 : Forall (λ t, (3600 | t - 0)%Z) (stamps index)).
  { simpl. repeat constructor;
      [exists 0%Z | exists 1%Z | exists 2%Z | exists 3%Z]; lia. }
  assert (H3 : freq index = Some 3600%Z) by reflexivity.
  assert (H4 : (3600 | 3600)%Z) by (exists 1%Z; lia).
  assert (H5 : 3%Z ≠ 0%Z) by lia.
  split; [exact H1 |]. split; [exact H2 |]. split; [exact H3 |].
  split; [exact H4 |]. split; [exact H5 |].
  destruct (time_split_durations_sum index None _ _ _ _ H1 H2 H3 H4 H5)
    as (delays & datas & tn & Hs & Hl & _ & Hsum).
  exists delays, datas. split; [exact Hs |].
  injection Hl as <-. rewrite Hsum. reflexivity.
Defined.

Lemma int_hours (x : Z) : (0 ≤ x)%Z → int (hours x) = (x / 3600)%Z.
Proof.
  intros Hx. unfold int, hours. simpl.
  rewrite Z.mul_1_r. apply Z.quot_div_nonneg; lia.
Qed.

Lemma ticks_of_whole_hours (diffs : list Z) :
  Forall (λ x, (0 ≤ x)%Z ∧ (3600 | x)%Z) diffs →
  Z.of_nat (sum_list_with (λ d, Z.to_nat (int d)) (hours <$> diffs))
  = (foldr Z.add 0%Z diffs / 3600)%Z
  ∧ (0 ≤ foldr Z.add 0%Z diffs)%Z.
Proof.
  induction 1 as [| x diffs [Hx [k Hk]] _ [IH1 IH2]]; [done |].
  rewrite fmap_cons.
  change (sum_list_with (λ d, Z.to_nat (int d)) (hours x :: (hours <$> diffs)))
    with (Z.to_nat (int (hours x))
          + sum_list_with (λ d, Z.to_nat (int d)) (hours <$> diffs)).
  change (foldr Z.add 0%Z (x :: diffs)) with (x + foldr Z.add 0%Z diffs)%Z.
  rewrite Nat2Z.inj_add, IH1, int_hours by done.
  rewrite Z2Nat.id by (apply Z.div_pos; lia).
  split; [| lia]. subst x. rewrite Z.div_add_l, Z.div_mul by lia. done.
Qed.

(** X16. [time_split] composes with [Timing]: the two lists it returns are
    accepted by [Timing]. On a strictly increasing sequence whose
    timestamps are whole hours apart and whose period is a whole number of
    hours, the [Timing] made from them has exactly one element per hour of
    the span, from the first timestamp to one period past the last: the
    truncation of the durations loses nothing. *)
Theorem time_split_feeds_Timing (time_sequence : DatetimeIndex)
    (weather_data : option (Z → Z → value)) (t0 : Z) (later : list Z)
    (period delay : Z) :
  stamps time_sequence = t0 :: later →
  StronglySorted Z.lt (stamps time_sequence) →
  Forall (λ t, (3600 | t - t0)%Z) (stamps time_sequence) →
  freq time_sequence = Some period → (0 < period)%Z → (3600 | period)%Z →
  delay ≠ 0%Z →
  ∃ delays datas tn t elems t_end,
    time_split time_sequence weather_data delay = Ok (delays, datas)
    ∧ last (stamps time_sequence) = Some tn
    ∧ Timing.__init__ delays (Some datas) = Ok t
    ∧ consume Timing.next (S (length elems)) t
      = Some (elems, StopIteration, t_end)
    ∧ Z.of_nat (length elems) = ((tn + period - t0) / 3600)%Z.
Proof.
  intros Hst Hsorted Hwhole Hfreq Hperiod Hp Hdelay.
  destruct (time_split_events time_sequence weather_data t0 later period delay
              Hst Hfreq Hdelay) as (tn & starts & Hlast & Hsub & Hsplit).
  set (ends := starts ++ [(tn + period)%Z]) in *.
  set (diffs := zip_with (λ s e, (e - s)%Z) (t0 :: starts) ends) in *.
  set (datas := zip_with (λ s e, match weather_data with
                                 | Some truncate => truncate s e
                                 | None => None_
                                 end) (t0 :: starts) ends) in *.
  assert (Hlen : length datas = length (hours <$> diffs)).
  { unfold datas, diffs. by rewrite length_fmap, !length_zip_with. }
  destruct (Timing_init_ok (hours <$> diffs) (Some datas)) as [t Ht].
  { unfold diffs, ends. destruct starts; done. }
  { intros ds Hds. by injection Hds as <-. }
  assert (Hdiffs : Forall (λ x, (0 ≤ x)%Z ∧ (3600 | x)%Z) diffs).
  { apply Forall_lookup. intros i x Hx. unfold diffs in Hx.
    rewrite lookup_zip_with in Hx.
    destruct ((t0 :: starts) !! i) as [s |] eqn:Hs; [| done].
    destruct (ends !! i) as [e |] eqn:He; [| done].
    simpl in Hx. injection Hx as <-.
    destruct (ends_lookup (t0 :: starts) (tn + period)%Z i s Hs)
      as (e' & He' & Hnext).
    simpl tail in He'. fold ends in He'. rewrite He in He'. injection He' as <-.
    assert (Hs_in : s ∈ stamps time_sequence).
    { eapply elem_of_sublist; [| exact Hsub]. by eapply list_elem_of_lookup_2. }
    pose proof (proj1 (Forall_forall _ _) Hwhole s Hs_in) as [ks Hks].
    destruct Hnext as [Hn | [_ ->]].
    - pose proof (StronglySorted_adjacent _ i s e
                    (sublist_StronglySorted _ _ Hsub Hsorted) Hs Hn).
      assert (He_in : e ∈ stamps time_sequence).
      { eapply elem_of_sublist; [| exact Hsub]. by eapply list_elem_of_lookup_2. }
      pose proof (proj1 (Forall_forall _ _) Hwhole e He_in) as [ke Hke].
      split; [lia |]. exists (ke - ks)%Z. lia.
    - pose proof (StronglySorted_le_last _ s tn Hsorted Hlast Hs_in).
      assert (Htn_in : tn ∈ stamps time_sequence).
      { apply last_Some in Hlast as [l' ->]. apply elem_of_app. right. constructor. }
      pose proof (proj1 (Forall_forall _ _) Hwhole tn Htn_in) as [kn Hkn].
      destruct Hp as [kp Hkp].
      split; [lia |]. exists (kn + kp - ks)%Z. lia. }
  pose proof Ht as Hinit. unfold Timing.__init__ in Hinit.
  destruct (delay_to_timing (hours <$> diffs) (Some datas)) as [timing |] eqn:Hdt;
    [| done].
  simpl in Hinit. injection Hinit as <-.
  eexists _, _, tn, _, _, _. split; [exact Hsplit |]. split; [exact Hlast |].
  split; [exact Ht |]. split; [apply Timing_consume; lia |].
  rewrite length_fmap.
  assert (Hds : ∀ ds, Some datas = Some ds → length ds = length (hours <$> diffs))
    by (intros ds Hds; by injection Hds as <-).
  rewrite (delay_to_timing_length _ _ _ Hds Hdt).
  rewrite (proj1 (ticks_of_whole_hours diffs Hdiffs)).
  unfold diffs, ends. by rewrite telescope.
Qed.

Lemma time_split_feeds_Timing_witness :
  let index := Build_index [0; 3600; 7200; 10800; 14400]%Z (Some 3600%Z) in
  stamps index = 0%Z :: [3600; 7200; 10800; 14400]%Z
  ∧ StronglySorted Z.lt (stamps index)
  ∧ Forall (λ t, (3600 | t - 0)%Z) (stamps index)
  ∧ freq index = Some 3600%Z ∧ (0 < 3600)%Z ∧ (3600 | 3600)%Z ∧ 2%Z ≠ 0%Z
  ∧ ∃ delays datas t elems t_end,
      time_split index None 2 = Ok (delays, datas)
      ∧ Timing.__init__ delays (Some datas) = Ok t
      ∧ consume Timing.next (S (length elems)) t
        = Some (elems, StopIteration, t_end)
      ∧ Z.of_nat (length elems) = 5%Z.
Proof.
  intros index.
  assert (H1 : stamps index = 0%Z :: [3600; 7200; 10800; 14400]%Z)
    by reflexivity.
  assert (H2 : StronglySorted Z.lt (stamps index))
    by (simpl; repeat constructor; lia).
  assert (H3 : Forall (λ t, (3600 | t - 0)%Z) (stamps index)).
  { simpl. repeat constructor;
      [exists 0%Z | exists 1%Z | exists 2%Z | exists 3%Z | exists 4%Z]; lia. }
  assert (H4 : freq index = Some 3600%Z) by reflexivity.
  assert (H5 : (0 < 3600)%Z) by lia.
  assert (H6 : (3600 | 3600)%Z) by (exists 1%Z; lia).
  assert (H7 : 2%Z ≠ 0%Z) by lia.
  split; [exact H1 |]. split; [exact H2 |]. split; [exact H3 |].
  split; [exact H4 |]. split; [exact H5 |]. split; [exact H6 |].
  split; [exact H7 |].
  destruct (time_split_feeds_Timing index None _ _ _ _ H1 H2 H3 H4 H5 H6 H7)
    as (delays & datas & tn & t & elems & t_end & Hs & Hl & Ht & Hc & Hn).
  exists delays, datas, t, elems, t_end.
  split; [exact Hs |]. split; [exact Ht |]. split; [exact Hc |].
  injection Hl as <-. exact Hn.
Defined.

(** ** rain_filter and rain_split *)

Section Rain.

Variable weather_data : weather.

Local Abbreviation state := (rain_state weather_data).

(** The timestamps after the first one, each compared with the one before. *)
Lemma mask_change_points (p : Z) (l : list Z) :
  ∃ sel,
    mask l (zip_with differs (state <$> l) (take (length l) (state p :: (state <$> l))))
    = sel
    ∧ sel `sublist_of` l
    ∧ (NoDup l →
       ∀ i a b, (p :: l) !! i = Some a → (p :: l) !! S i = Some b →
         (b ∈ sel ↔ ¬ (state b == state a)%Q))
    ∧ (Forall (λ t, (state t == state p)%Q) l → sel = []).
Proof.
  revert p. induction l as [| t l IH]; intros p.
  - exists []. split; [done |]. split; [constructor |]. split; [| done].
    intros _ [| i] a b Ha Hb; done.
  - destruct (IH t) as (sel & Hsel & Hsub & Hchg & Hconst).
    exists (if differs (state t) (state p) then t :: sel else sel).
    assert (Hd : differs (state t) (state p) = true ↔ ¬ (state t == state p)%Q).
    { unfold differs. rewrite negb_true_iff, <- not_true_iff_false.
      by rewrite Qeq_bool_iff. }
    split; [| split; [| split]].
    + rewrite fmap_cons. cbn [length take zip_with]. unfold mask in *.
      cbn [zip_with List.filter snd].
      destruct (differs (state t) (state p)); [rewrite fmap_cons |];
        cbn [fst]; by rewrite Hsel.
    + destruct (differs (state t) (state p)); by constructor.
    + intros Hnd%NoDup_cons [| i] a b Ha Hb; destruct Hnd as [Ht Hnd].
      * simpl in Ha, Hb. injection Ha as <-. injection Hb as <-.
        rewrite <- Hd.
        destruct (differs (state t) (state p)).
        -- split; [done | intros _; constructor].
        -- split; [| done]. intros Hin. exfalso. apply Ht.
           by eapply elem_of_sublist.
      * simpl in Ha, Hb. rewrite <- (Hchg Hnd i a b Ha Hb).
        assert (b ≠ t).
        { intros ->. apply Ht. by eapply list_elem_of_lookup_2. }
        destruct (differs (state t) (state p)); [| done].
        rewrite elem_of_cons. split; [intros [? | ?]; done | by right].
    + intros Hall%Forall_cons. destruct Hall as [Ht Hall].
      destruct (differs (state t) (state p)) eqn:Hdp.
      * by destruct (proj1 Hd eq_refl).
      * apply Hconst. eapply Forall_impl; [exact Hall |].
        intros x Hx. simpl in Hx. by rewrite Hx, Ht.
Qed.

Lemma rain_filter_nonempty (time_sequence : DatetimeIndex) (t0 : Z) (later : list Z) :
  stamps time_sequence = t0 :: later →
  rain_filter time_sequence weather_data
  = t0 :: mask later (zip_with differs (state <$> later)
                        (take (length later) (state t0 :: (state <$> later)))).
Proof.
  intros Hst. unfold rain_filter. rewrite Hst, !fmap_cons.
  cbn [length pred drop]. rewrite length_fmap, length_fmap.
  rewrite <- list_fmap_compose.
  unfold mask. cbn [app zip_with List.filter snd]. rewrite fmap_cons. done.
Qed.

(** X17. On a non-empty sequence of distinct timestamps, [rain_filter]
    keeps the first timestamp and, of the later ones and in their order,
    exactly those whose rain state (raining or not, after [rain > 0] is set
    to 1) differs from the state of the timestamp just before: the starts
    of the rain events and of the dry events. *)
Theorem rain_filter_change_points (time_sequence : DatetimeIndex)
    (t0 : Z) (later : list Z) :
  stamps time_sequence = t0 :: later →
  NoDup (stamps time_sequence) →
  ∃ sel,
    rain_filter time_sequence weather_data = t0 :: sel
    ∧ sel `sublist_of` later
    ∧ ∀ i p t,
        stamps time_sequence !! i = Some p →
        stamps time_sequence !! S i = Some t →
        (t ∈ sel ↔ ¬ (binarize (rain weather_data t)
                      == binarize (rain weather_data p))%Q).
Proof.
  intros Hst Hnd. rewrite Hst in *. apply NoDup_cons in Hnd as [_ Hnd].
  destruct (mask_change_points t0 later) as (sel & Hsel & Hsub & Hchg & _).
  exists sel. split; [by rewrite (rain_filter_nonempty _ t0 later), Hsel |].
  split; [done |]. intros i p t. by apply Hchg.
Qed.

Lemma rain_split_events (time_sequence : DatetimeIndex)
    (t0 : Z) (later : list Z) (period : Z) (sel : list Z) :
  stamps time_sequence = t0 :: later →
  freq time_sequence = Some period →
  rain_filter time_sequence weather_data = t0 :: sel →
  ∃ tn,
    last (stamps time_sequence) = Some tn
    ∧ rain_split time_sequence weather_data
      = Ok (hours <$> zip_with (λ s e, (e - s)%Z) (t0 :: sel)
                               (sel ++ [(tn + period)%Z]),
            zip_with (truncate weather_data) (t0 :: sel)
                     (sel ++ [(tn + period)%Z])).
Proof.
  intros Hst Hfreq Hsel.
  destruct (proj2 (last_is_Some (stamps time_sequence))) as [tn Hlast];
    [by rewrite Hst |].
  exists tn. split; [done |]. unfold rain_split. rewrite Hsel.
  rewrite (getitem_last _ _ Hlast). cbn [mbind result_bind].
  unfold Timestamp_add. rewrite Hfreq, Z.mul_1_l. cbn [mbind result_bind tail].
  rewrite unzip_ok by (destruct sel; done).
  do 2 f_equal; rewrite <- ?list_fmap_compose;
    generalize (t0 :: sel) (sel ++ [(tn + period)%Z]); clear; intros l;
    (induction l as [| s l IH]; intros [| e l']; simpl; f_equal; auto).
Qed.

(** X18. The outcomes of [rain_split]: on an empty sequence it raises
    [IndexError], on a non-empty one without a frequency [ValueError]; on a
    non-empty one with a frequency it returns two non-empty lists of the
    same length. When moreover the timestamps are whole hours apart and the
    period is a whole number of hours, every duration is a whole number of
    hours and the durations add up to the whole span, from the first
    timestamp to one period past the last. *)
Theorem rain_split_outcomes (time_sequence : DatetimeIndex) :
  (stamps time_sequence = [] →
     rain_split time_sequence weather_data = Raise IndexError)
  ∧ (stamps time_sequence ≠ [] → freq time_sequence = None →
     rain_split time_sequence weather_data = Raise ValueError)
  ∧ (∀ t0 later period,
       stamps time_sequence = t0 :: later → freq time_sequence = Some period →
       ∃ delays datas tn,
         rain_split time_sequence weather_data = Ok (delays, datas)
         ∧ last (stamps time_sequence) = Some tn
         ∧ delays ≠ [] ∧ length datas = length delays
         ∧ (Forall (λ t, (3600 | t - t0)%Z) (stamps time_sequence) →
            (3600 | period)%Z →
            Forall (λ d, ∃ k : Z, (d == inject_Z k)%Q) delays
            ∧ (Qsum delays == hours (tn + period - t0))%Q)).
Proof.
  split; [| split].
  - intros Hst. unfold rain_split. rewrite Hst. reflexivity.
  - intros Hne Hfreq. unfold rain_split.
    destruct (proj2 (last_is_Some (stamps time_sequence)) Hne) as [tn Hlast].
    rewrite (getitem_last _ _ Hlast). cbn [mbind result_bind].
    unfold Timestamp_add. by rewrite Hfreq.
  - intros t0 later period Hst Hfreq.
    destruct (mask_change_points t0 later) as (sel & Hsel & Hsub & _ & _).
    destruct (rain_split_events time_sequence t0 later period sel Hst Hfreq)
      as (tn & Hlast & Hsplit).
    { by rewrite (rain_filter_nonempty _ t0 later), Hsel. }
    eexists _, _, tn. split; [exact Hsplit |]. split; [exact Hlast |].
    split; [by destruct sel |].
    split; [by rewrite length_fmap, !length_zip_with |].
    intros Hwhole Hp. split; [| by rewrite Qsum_hours, telescope].
    eapply whole_hour_durations; [| exact Hlast | exact Hwhole | exact Hp].
    rewrite Hst. by constructor.
Qed.

(** X19. When the rain state never changes over the sequence (it never
    rains, or it rains at every timestamp, with whatever amounts),
    [rain_split] returns a single block: its duration is the whole span and
    its data the slice of the table over it. *)
Theorem rain_split_constant_state (time_sequence : DatetimeIndex)
    (t0 : Z) (later : list Z) (period : Z) :
  stamps time_sequence = t0 :: later →
  freq time_sequence = Some period →
  Forall (λ t, (binarize (rain weather_data t)
                == binarize (rain weather_data t0))%Q) later →
  ∃ tn,
    last (stamps time_sequence) = Some tn
    ∧ rain_split time_sequence weather_data
      = Ok ([hours (tn + period - t0)],
            [truncate weather_data t0 (tn + period)]).
Proof.
  intros Hst Hfreq Hconst.
  destruct (mask_change_points t0 later) as (sel & Hsel & _ & _ & Hnil).
  specialize (Hnil Hconst). rewrite Hnil in Hsel.
  destruct (rain_split_events time_sequence t0 later period [] Hst Hfreq)
    as (tn & Hlast & Hsplit).
  { by rewrite (rain_filter_nonempty _ t0 later), Hsel. }
  exists tn. split; [done |]. exact Hsplit.
Qed.

End Rain.

Lemma rain_filter_change_points_witness :
  let index := Build_index [0; 3600; 7200; 10800]%Z (Some 3600%Z) in
  let table := Build_weather (λ t, if (t <? 7200)%Z then 0%Q else (5 # 10)%Q)
                             (λ _ _, None_) in
  stamps index = 0%Z :: [3600; 7200; 10800]%Z
  ∧ NoDup (stamps index)
  ∧ ∃ sel,
      rain_filter index table = 0%Z :: sel
      ∧ sel `sublist_of` [3600; 7200; 10800]%Z.
Proof.
  intros index table.
  assert (H1 : stamps index = 0%Z :: [3600; 7200; 10800]%Z) by reflexivity.
  assert (H2 : NoDup (stamps index))
    by (apply (bool_decide_unpack _); vm_compute; exact I).
  split; [exact H1 |]. split; [exact H2 |].
  destruct (rain_filter_change_points table index _ _ H1 H2)
    as (sel & Hs & Hsub & _).
  exists sel. split; [exact Hs | exact Hsub].
Defined.

Lemma rain_split_outcomes_witness :
  let index := Build_index [0; 3600; 7200; 10800]%Z (Some 3600%Z) in
  let table := Build_weather (λ t, if (t <? 7200)%Z then 0%Q else (5 # 10)%Q)
                             (λ _ _, None_) in
  stamps index = 0%Z :: [3600; 7200; 10800]%Z
  ∧ freq index = Some 3600%Z
  ∧ ∃ delays datas,
      rain_split index table = Ok (delays, datas)
      ∧ (Qsum delays == 4)%Q.
Proof.
  intros index table.
  assert (H1 : stamps index = 0%Z :: [3600; 7200; 10800]%Z) by reflexivity.
  assert (H2 : freq index = Some 3600%Z) by reflexivity.
  split; [exact H1 |]. split; [exact H2 |].
  destruct (proj2 (proj2 (rain_split_outcomes table index)) _ _ _ H1 H2)
    as (delays & datas & tn & Hs & Hl & _ & _ & Hsum).
  exists delays, datas. split; [exact Hs |].
  injection Hl as <-.
  assert (H3 : Forall (λ t, (3600 | t - 0)%Z) (stamps index)).
  { simpl. repeat constructor;
      [exists 0%Z | exists 1%Z | exists 2%Z | exists 3%Z]; lia. }
  assert (H4 : (3600 | 3600)%Z) by (exists 1%Z; lia).
  rewrite (proj2 (Hsum H3 H4)). reflexivity.
Defined.

Lemma rain_split_constant_state_witness :
  let index := Build_index [0; 3600; 7200]%Z (Some 3600%Z) in
  let table := Build_weather (λ t, if (t <? 3600)%Z then (1 # 4)%Q else (7 # 2)%Q)
                             (λ _ _, None_) in
  stamps index = 0%Z :: [3600; 7200]%Z
  ∧ freq index = Some 3600%Z
  ∧ Forall (λ t, (binarize (rain table t) == binarize (rain table 0))%Q)
           [3600; 7200]%Z
  ∧ rain_split index table = Ok ([hours (7200 + 3600 - 0)], [None_]).
Proof.
  intros index table.
  assert (H1 : stamps index = 0%Z :: [3600; 7200]%Z) by reflexivity.
  assert (H2 : freq index = Some 3600%Z) by reflexivity.
  assert (H3 : Forall (λ t, (binarize (rain table t) == binarize (rain table 0))%Q)
                      [3600; 7200]%Z) by (repeat constructor).
  split; [exact H1 |]. split; [exact H2 |]. split; [exact H3 |].
  destruct (rain_split_constant_state table index _ _ _ H1 H2 H3)
    as (tn & Hl & Hs).
  injection Hl as <-. exact Hs.
Defined.
